(** * RagAgent: a retrieval-augmented chat agent

    A shallow embedding of
    [libs/langchain/langchain/automaton/agent_implementations/rag_agent.py]:
    the [prompt_generator] function and the [RagAgent] class with its
    [__init__], [step] and [run] methods, together with the properties
    that the specification of the repository states about them. *)

From Stdlib Require Import ZArith Lia.
From stdpp Require Import base option list strings gmap pretty.

Local Open Scope Z_scope.
Local Open Scope nat_scope.

(** ** Message model *)

(** The line feed, written [\n] in the Python literals. *)
Definition LF : string := String (Ascii.ascii_of_nat 10) EmptyString.

(** Modelled from the spec: [langchain.schema.Document] is not part of the
    sources at hand.  A retrieval result is [{page_content: text,
    metadata: mapping(string -> value)}]; a metadata value is kept as the
    text that an f-string interpolation of it produces. *)
Record Document : Type := mkDocument {
  page_content : string;
  metadata : gmap string string
}.

(** Modelled from the spec: [langchain.schema.messages] is not part of the
    sources at hand.  A chat message is human-authored, AI-authored, or a
    generic chat message (system, function/tool, or with a free role). *)
Inductive BaseMessage : Type :=
| HumanMessage (content : string)
| AIMessage (content : string)
| SystemMessage (content : string)
| FunctionMessage (name content : string)
| ChatMessage (role content : string).

(** Modelled from the spec: [langchain.automaton.typedefs] is not part of
    the sources at hand.  The internal events are [RetrievalRequest{query}],
    [RetrievalResponse{results}], the finish signal [AgentFinish{...}], and
    any further internal event, kept with its tag. *)
Inductive InternalMessage : Type :=
| RetrievalRequest (query : string)
| RetrievalResponse (results : list Document)
| AgentFinish (result : string)
| OtherInternal (tag data : string).

(** [MessageLike = Union[BaseMessage, InternalMessage]]: exactly one
    variant tag per event. *)
Inductive MessageLike : Type :=
| Chat (m : BaseMessage)
| Internal (m : InternalMessage).

Coercion Chat : BaseMessage >-> MessageLike.
Coercion Internal : InternalMessage >-> MessageLike.

(** ** [prompt_generator] *)

(** Python's [enumerate(xs, start)]. *)
Fixpoint enumerate_from {A : Type} (start : nat) (xs : list A) : list (nat * A) :=
  match xs with
  | [] => []
  | x :: xs => (start, x) :: enumerate_from (S start) xs
  end.

Definition enumerate {A : Type} (xs : list A) : list (nat * A) :=
  enumerate_from 0 xs.

(** The body of [for field in ["title", "description", "source"]]:
    [if field in doc.metadata: prompt += f"{doc.metadata[field]}\n"]. *)
Definition add_field (doc : Document) (prompt : string) (field : string) : string :=
  match metadata doc !! field with
  | Some value => prompt +:+ (value +:+ LF)
  | None => prompt
  end.

(** The body of [for idx, doc in enumerate(message.results)]. *)
Definition add_result (prompt : string) (entry : nat * Document) : string :=
  let '(idx, doc) := entry in
  let prompt := prompt +:+ ("--- Result " +:+ pretty idx +:+ " ---" +:+ LF) in
  let prompt := prompt +:+ ("Text:" +:+ LF) in
  let prompt := prompt +:+ page_content doc in
  let prompt := foldl (add_field doc) prompt ["title"; "description"; "source"] in
  prompt +:+ ("--- End Result " +:+ pretty idx +:+ " ---" +:+ LF).

(** The [RetrievalResponse] branch up to the construction of the message:
    the value of [prompt] when [messages.append] is reached.  A sequence
    is truthy exactly when it is not empty. *)
Definition results_prompt (results : list Document) : string :=
  let prompt := "" in
  match results with
  | _ :: _ => foldl add_result prompt (enumerate results)
  | [] => "Found no results for the query."
  end.

(** The body of [for message in input_messages], on the accumulator
    [messages]. *)
Definition add_message (messages : list BaseMessage) (message : MessageLike)
  : list BaseMessage :=
  match message with
  | Chat m => messages ++ [m]
  | Internal (RetrievalResponse results) =>
      messages ++
        [HumanMessage
           (("Context: <result>" +:+ LF) +:+ results_prompt results
              +:+ (LF +:+ "</result>"))]
  | Internal _ => messages
  end.

Definition prompt_generator (input_messages : list MessageLike) : list BaseMessage :=
  let messages := [] in
  foldl add_message messages input_messages.

(** ** Effects: collaborators, exceptions and the produced events *)

(** What a call can raise: the [AttributeError] of an attribute access on
    [None], or whatever a collaborator raises. *)
Inductive Exception : Type :=
| AttributeError (msg : string)
| CollaboratorError (msg : string).

Section Agent.

(** The state of the services behind the collaborators (language model,
    retrieval backend, memory), and [RunnableConfig]. *)
Context {World Config : Type}.

(** The collaborator invocations, in the order they are made. *)
Inductive Call : Type :=
| ProcessCall (messages : list MessageLike)
| RetrieverCall (request : MessageLike) (config : option Config)
| LLMCall (messages : list MessageLike) (config : option Config).

(** The interfaces of the three collaborators: each may change the
    outside world and may raise. *)
Definition LLMProgram : Type :=
  list MessageLike -> option Config -> World -> (Exception + list MessageLike) * World.
Definition RetrieverAdapter : Type :=
  MessageLike -> option Config -> World -> (Exception + MessageLike) * World.
Definition WorkingMemoryManager : Type :=
  list MessageLike -> World -> (Exception + list MessageLike) * World.

(** The state threaded through [step] and [run]: the outside world, the
    trace of collaborator calls, and the events the generator [run] has
    produced so far. *)
Record State : Type := mkState {
  world : World;
  calls : list Call;
  yielded : list MessageLike
}.

Definition M (A : Type) : Type := State -> (Exception + A) * State.

Definition ret {A : Type} (a : A) : M A := fun s => (inr a, s).

Definition bind {A B : Type} (c : M A) (k : A -> M B) : M B :=
  fun s =>
    match c s with
    | (inl e, s') => (inl e, s')
    | (inr a, s') => k a s'
    end.

Definition raise {A : Type} (e : Exception) : M A := fun s => (inl e, s).

Definition record (c : Call) (w : World) (s : State) : State :=
  mkState w (calls s ++ [c]) (yielded s).

(** [yield m]: one event handed to the consumer. *)
Definition yield (m : MessageLike) : M unit :=
  fun s => (inr tt, mkState (world s) (calls s) (yielded s ++ [m])).

End Agent.

Arguments Call : clear implicits.
Arguments LLMProgram : clear implicits.
Arguments RetrieverAdapter : clear implicits.
Arguments WorkingMemoryManager : clear implicits.
Arguments State : clear implicits.
Arguments M : clear implicits.

Notation "'let*' x ':=' c 'in' k" := (bind c (fun x => k))
  (at level 10, x pattern, c at level 100, k at level 200).
Notation "c ';;' k" := (bind c (fun _ => k))
  (at level 100, k at level 200, right associativity).

(** ** The agent *)

Section RagAgent.

Context {World Config : Type}.

(** The attributes [__init__] sets. *)
Record RagAgent : Type := mkRagAgent {
  llm_program : LLMProgram World Config;
  retriever : RetrieverAdapter World Config;
  memory_manager : option (WorkingMemoryManager World)
}.

(** [self.llm_program.invoke(messages, config=config)] *)
Definition invoke_llm_program (self : RagAgent) (messages : list MessageLike)
    (config : option Config) : M World Config (list MessageLike) :=
  fun s =>
    let '(r, w) := llm_program self messages config (world s) in
    (r, record (LLMCall messages config) w s).

(** [self.retriever.invoke(request, config=config)] *)
Definition invoke_retriever (self : RagAgent) (request : MessageLike)
    (config : option Config) : M World Config MessageLike :=
  fun s =>
    let '(r, w) := retriever self request config (world s) in
    (r, record (RetrieverCall request config) w s).

(** [self.memory_manager.process(messages)]; the attribute access on
    [None] raises. *)
Definition process (self : RagAgent) (messages : list MessageLike)
  : M World Config (list MessageLike) :=
  match memory_manager self with
  | None => raise (AttributeError "'NoneType' object has no attribute 'process'")
  | Some mm =>
      fun s =>
        let '(r, w) := mm messages (world s) in
        (r, record (ProcessCall messages) w s)
  end.

(** [RagAgent.step].  [messages[-1] if messages else None] is [last
    messages]; the events are class instances that define neither
    [__bool__] nor [__len__], so [not last_message] holds for [None]
    only.  The class patterns of [match] are tried in the order of the
    source. *)
Definition step (self : RagAgent) (messages : list MessageLike)
    (config : option Config) : M World Config (list MessageLike) :=
  let last_message := last messages in
  match last_message with
  | None => ret []
  | Some last_message =>
      match last_message with
      | Chat (AIMessage _) => ret []
      | Internal (AgentFinish _) => ret []
      | Chat (HumanMessage content) => ret [Internal (RetrievalRequest content)]
      | Internal (RetrievalRequest _) =>
          let* response := invoke_retriever self last_message config in
          ret [response]
      | _ => invoke_llm_program self messages config
      end
  end.

(** [yield from new_messages] *)
Fixpoint yield_from (new_messages : list MessageLike) : M World Config unit :=
  match new_messages with
  | [] => ret tt
  | m :: rest => yield m ;; yield_from rest
  end.

(** How one pass through a loop body ends. *)
Inductive Control : Type := Next | Break.

(** [for _ in range(n): body], the body acting on the loop's local
    variable and able to [break]. *)
Fixpoint for_range {S : Type} (n : nat) (body : S -> M World Config (Control * S))
    (local : S) : M World Config S :=
  match n with
  | O => ret local
  | S n' =>
      let* (ctl, local) := body local in
      match ctl with
      | Break => ret local
      | Next => for_range n' body local
      end
  end.

(** The body of the loop of [run], on the local [all_messages].
    [all_messages.extend(new_messages)] lengthens in place the list that
    [process] returned; the log is kept here by value, which is what the
    next round hands to [process].  A memory manager that keeps a
    reference to the list it returns would see it grow: that sharing is
    not part of the model. *)
Definition run_body (self : RagAgent) (config : option Config)
    (all_messages : list MessageLike)
  : M World Config (Control * list MessageLike) :=
  let* all_messages := process self all_messages in
  let* new_messages := step self all_messages config in
  match new_messages with
  | [] => ret (Break, all_messages)
  | _ :: _ =>
      yield_from new_messages ;;
      ret (Next, all_messages ++ new_messages)
  end.

(** [RagAgent.run], consumed to its end.  [max_iterations] is [None]
    when the caller leaves the keyword out; [range] of a number that is
    not positive is empty. *)
Definition run (self : RagAgent) (messages : list MessageLike)
    (config : option Config) (max_iterations : option Z) : M World Config unit :=
  let max_iterations := default 100%Z max_iterations in
  let all_messages := messages in
  for_range (Z.to_nat max_iterations) (run_body self config) all_messages ;;
  ret tt.

End RagAgent.

Arguments RagAgent : clear implicits.

(** ** Construction *)

Section Construction.

Context {World Config : Type}.

(** [create_llm_program] and [create_retriever] of
    [langchain.automaton.runnables] are not part of the sources at hand:
    they are parameters, as are the types of what they are given. *)
Context {LanguageModel PromptGenerator Tool Parser BaseRetriever : Type}.
Variable create_llm_program :
  LanguageModel -> PromptGenerator -> option (list Tool) -> option Parser ->
  option (list string) -> bool -> LLMProgram World Config.
Variable create_retriever : option BaseRetriever -> RetrieverAdapter World Config.

(** [bool(tools)]: [None] and the empty sequence are falsy. *)
Definition bool_of_tools (tools : option (list Tool)) : bool :=
  match tools with
  | Some (_ :: _) => true
  | _ => false
  end.

(** [RagAgent.__init__]; a keyword the caller leaves out has the value
    [None], the default of each optional parameter. *)
Definition __init__ (llm : LanguageModel) (prompt_generator : PromptGenerator)
    (tools : option (list Tool)) (stop : option (list string))
    (parser : option Parser) (retriever : option BaseRetriever)
    (memory_manager : option (WorkingMemoryManager World))
  : RagAgent World Config :=
  let invoke_tools := bool_of_tools tools in
  mkRagAgent
    (create_llm_program llm prompt_generator tools parser stop invoke_tools)
    (create_retriever retriever)
    memory_manager.

End Construction.

(** ** Vocabulary of the properties *)

(** The class patterns of [step], as tests on an event. *)
Definition is_AIMessage (m : MessageLike) : bool :=
  match m with Chat (AIMessage _) => true | _ => false end.
Definition is_AgentFinish (m : MessageLike) : bool :=
  match m with Internal (AgentFinish _) => true | _ => false end.
Definition is_HumanMessage (m : MessageLike) : bool :=
  match m with Chat (HumanMessage _) => true | _ => false end.
Definition is_RetrievalRequest (m : MessageLike) : bool :=
  match m with Internal (RetrievalRequest _) => true | _ => false end.
Definition is_RetrievalResponse (m : MessageLike) : bool :=
  match m with Internal (RetrievalResponse _) => true | _ => false end.

(** [isinstance(message, BaseMessage)], with the message when it holds. *)
Definition as_chat (m : MessageLike) : option BaseMessage :=
  match m with Chat b => Some b | Internal _ => None end.

Section Traces.

Context {Config : Type}.

Definition is_process_call (c : Call Config) : bool :=
  match c with ProcessCall _ => true | _ => false end.

(** The number of rounds a trace shows: every round of [run] starts with
    one call of the memory manager. *)
Definition process_calls (cs : list (Call Config)) : nat :=
  length (List.filter is_process_call cs).

(** A trace made of rounds: each round is a call of the memory manager,
    followed by at most one call of the retriever or of the LLM program.
    No retriever or LLM call is made without the memory manager having
    been called just before. *)
Fixpoint rounds_trace (cs : list (Call Config)) : bool :=
  match cs with
  | [] => true
  | ProcessCall _ :: rest =>
      match rest with
      | RetrieverCall _ _ :: rest' | LLMCall _ _ :: rest' => rounds_trace rest'
      | _ => rounds_trace rest
      end
  | _ => false
  end.

(** The calls one pass through the loop body of [run], entered with the
    log [messages], adds to the trace: none when the memory manager is
    missing, else the call of the memory
    manager and at most one call made by [step]. *)
Inductive round_calls (messages : list MessageLike) : list (Call Config) -> Prop :=
| round_no_call : round_calls messages []
| round_process_only : round_calls messages [ProcessCall messages]
| round_process_then c :
    is_process_call c = false -> round_calls messages [ProcessCall messages; c].

End Traces.

(** Closed forms of what [prompt_generator] builds, in which the
    properties are stated.  First the text of the metadata fields of a
    result: the value of each of [title], [description], [source] that is
    present, each followed by a line feed. *)
Definition field_lines (doc : Document) : string :=
  foldr String.append ""
    (omap (fun field => (fun value => value +:+ LF) <$> metadata doc !! field)
          ["title"; "description"; "source"]).

(** The block of the result at index [idx], as the code lays it out: the
    opening marker line, the line [Text:], the text body, the metadata
    lines, the closing marker line. *)
Definition result_block (idx : nat) (doc : Document) : string :=
  ("--- Result " +:+ pretty idx +:+ " ---" +:+ LF)
  +:+ ("Text:" +:+ LF)
  +:+ page_content doc
  +:+ field_lines doc
  +:+ ("--- End Result " +:+ pretty idx +:+ " ---" +:+ LF).

Definition results_body (results : list Document) : string :=
  foldr String.append "" (imap result_block results).

(** The wrapping of a body: ["Context: <result>\n" + body + "\n</result>"]. *)
Definition wrap_context (body : string) : string :=
  ("Context: <result>" +:+ LF) +:+ body +:+ (LF +:+ "</result>").

(** The block as the specification words it: the marker, the text body,
    the metadata lines, the closing marker, and nothing else; [eol] is
    what ends a marker (nothing, or a line feed). *)
Definition spec_result_block (eol : string) (idx : nat) (doc : Document) : string :=
  ("--- Result " +:+ pretty idx +:+ " ---" +:+ eol)
  +:+ page_content doc
  +:+ field_lines doc
  +:+ ("--- End Result " +:+ pretty idx +:+ " ---" +:+ eol).

Definition spec_results_content (eol : string) (results : list Document) : string :=
  wrap_context (foldr String.append "" (imap (spec_result_block eol) results)).

(** What one event contributes to the prompt. *)
Definition rendered (m : MessageLike) : list BaseMessage :=
  match m with
  | Chat b => [b]
  | Internal (RetrievalResponse results) =>
      [HumanMessage (wrap_context (results_prompt results))]
  | Internal _ => []
  end.

(** ** Example collaborators *)

(** A world that counts the service calls made; no configuration. *)
Definition demo_llm : LLMProgram nat unit :=
  fun _ _ w => (inr [Internal (OtherInternal "FunctionCallRequest" "lookup")], S w).

Definition demo_retriever : RetrieverAdapter nat unit :=
  fun _ _ w => (inr (Internal (RetrievalResponse [])), S w).

Definition demo_memory : WorkingMemoryManager nat :=
  fun messages w => (inr messages, w).

Definition demo_agent : RagAgent nat unit :=
  mkRagAgent demo_llm demo_retriever (Some demo_memory).

Definition demo_state : State nat unit := mkState 0 [] [].

(** Factories that build the example collaborators whatever they are
    given. *)
Definition demo_create_llm_program (llm prompt_generator : unit)
    (tools : option (list unit)) (parser : option unit)
    (stop : option (list string)) (invoke_tools : bool) : LLMProgram nat unit :=
  demo_llm.

Definition demo_create_retriever (retriever : option unit) : RetrieverAdapter nat unit :=
  demo_retriever.

Definition demo_log : list MessageLike := [Chat (HumanMessage "q")].

Definition demo_doc : Document := mkDocument "A" {[ "title" := "T" ]}.

(** The logs that end in an event the LLM program of the example has
    returned, or in a retrieval response. *)
Definition demo_invariant (log : list MessageLike) (s : State nat unit) : Prop :=
  last log = Some (Internal (OtherInternal "FunctionCallRequest" "lookup"))
  \/ last log = Some (Internal (RetrievalResponse [])).

(** An agent whose LLM program answers with one AI message. *)
Definition chat_llm : LLMProgram nat unit :=
  fun _ _ w => (inr [Chat (AIMessage "a")], S w).

Definition chat_agent : RagAgent nat unit :=
  mkRagAgent chat_llm demo_retriever (Some demo_memory).

(** An agent without a memory manager. *)
Definition bare_agent : RagAgent nat unit :=
  mkRagAgent chat_llm demo_retriever None.

(** ** Vocabulary of the further properties *)

(** The events that [step] leaves to the LLM program: the last case of
    its [match]. *)
Definition is_default_event (m : MessageLike) : bool :=
  negb (is_AIMessage m || is_AgentFinish m || is_HumanMessage m
        || is_RetrievalRequest m).

Section CallPredicates.

Context {Config : Type}.

(** The log of a call starts with [messages]. *)
Definition call_log_extends (messages : list MessageLike) (c : Call Config) : Prop :=
  match c with
  | ProcessCall log | LLMCall log _ => messages `prefix_of` log
  | RetrieverCall _ _ => True
  end.

(** A call as [step], given [config], makes it: the retriever on a
    [RetrievalRequest], the LLM program on a log whose last event belongs
    to the last case, each with [config]. *)
Definition call_of_step (config : option Config) (c : Call Config) : Prop :=
  match c with
  | ProcessCall _ => True
  | RetrieverCall request cfg => is_RetrievalRequest request = true /\ cfg = config
  | LLMCall log cfg =>
      cfg = config /\ exists m, last log = Some m /\ is_default_event m = true
  end.

End CallPredicates.

(** Where an exception of a run comes from: the attribute access on a
    missing memory manager, or a call of one of the collaborators of the
    agent that raised it. *)
Definition raised_by {World Config : Type} (self : RagAgent World Config)
    (config : option Config) (e : Exception) : Prop :=
  (memory_manager self = None
   /\ e = AttributeError "'NoneType' object has no attribute 'process'")
  \/ (exists mm log w w', memory_manager self = Some mm /\ mm log w = (inl e, w'))
  \/ (exists request w w', retriever self request config w = (inl e, w'))
  \/ (exists log w w', llm_program self log config w = (inl e, w')).

(** The rounds of a run as the specification words them, for an agent
    whose memory manager is [mm]: on each of up to [n] rounds, (1) the log
    is replaced by what [mm] makes of it, (2) [new] is what [step] returns
    on that log, (3) an empty [new] ends the run normally, (4) otherwise
    the elements of [new] are produced in their order, [new] is appended
    to the log, and the rounds go on.  An exception of [mm] or of [step]
    ends the run. *)
Fixpoint spec_rounds {World Config : Type} (self : RagAgent World Config)
    (mm : WorkingMemoryManager World) (config : option Config) (n : nat)
    (log : list MessageLike) (s : State World Config)
  : (Exception + unit) * State World Config :=
  match n with
  | O => (inr tt, s)
  | S n' =>
      match mm log (world s) with
      | (inl e, w) => (inl e, mkState w (calls s ++ [ProcessCall log]) (yielded s))
      | (inr log1, w) =>
          match step self log1 config
                  (mkState w (calls s ++ [ProcessCall log]) (yielded s)) with
          | (inl e, s2) => (inl e, s2)
          | (inr [], s2) => (inr tt, s2)
          | (inr (m :: rest), s2) =>
              spec_rounds self mm config n' (log1 ++ m :: rest)
                (mkState (world s2) (calls s2) (yielded s2 ++ m :: rest))
          end
      end
  end.

(** An agent whose memory manager keeps the last two events of the log
    and counts its calls in the world. *)
Definition window_memory : WorkingMemoryManager nat :=
  fun messages w => (inr (drop (length messages - 2) messages), S w).

Definition window_agent : RagAgent nat unit :=
  mkRagAgent demo_llm demo_retriever (Some window_memory).

Definition window_log : list MessageLike :=
  [Chat (SystemMessage "be brief"); Chat (AIMessage "hello");
   Chat (HumanMessage "q")].

(** An agent whose retrieval backend is down. *)
Definition failing_retriever : RetrieverAdapter nat unit :=
  fun _ _ w => (inl (CollaboratorError "backend down"), w).

Definition failing_agent : RagAgent nat unit :=
  mkRagAgent chat_llm failing_retriever (Some demo_memory).

(** ** Properties of [prompt_generator] *)

Lemma string_app_nil_l (a : string) : "" +:+ a = a.
Proof. reflexivity. Qed.

Lemma string_app_cons (ch : Ascii.ascii) (a b : string) :
  String ch a +:+ b = String ch (a +:+ b).
Proof. reflexivity. Qed.

Lemma string_app_assoc (a b c : string) : (a +:+ b) +:+ c = a +:+ (b +:+ c).
Proof.
  induction a as [|ch a IH]; [reflexivity|].
  rewrite !string_app_cons. by f_equal.
Qed.

Lemma string_app_nil_r (a : string) : a +:+ "" = a.
Proof.
  induction a as [|ch a IH]; [reflexivity|].
  rewrite string_app_cons. by f_equal.
Qed.

Lemma foldl_add_field doc (fields : list string) (prompt : string) :
  foldl (add_field doc) prompt fields
  = prompt +:+ foldr String.append ""
      (omap (fun field => (fun value => value +:+ LF) <$> metadata doc !! field) fields).
Proof.
  revert prompt. induction fields as [|field fields IH]; intros prompt; simpl.
  - by rewrite string_app_nil_r.
  - rewrite IH. unfold add_field.
    destruct (metadata doc !! field) as [value|]; simpl; [|reflexivity].
    by rewrite string_app_assoc.
Qed.

Lemma add_result_block (prompt : string) (idx : nat) (doc : Document) :
  add_result prompt (idx, doc) = prompt +:+ result_block idx doc.
Proof.
  unfold add_result, result_block. rewrite foldl_add_field.
  fold (field_lines doc). by rewrite !string_app_assoc.
Qed.

Lemma foldl_add_result (docs : list Document) (start : nat) (prompt : string) :
  foldl add_result prompt (enumerate_from start docs)
  = prompt +:+ foldr String.append "" (imap (fun i => result_block (start + i)) docs).
Proof.
  revert start prompt. induction docs as [|doc docs IH]; intros start prompt.
  - simpl. by rewrite string_app_nil_r.
  - cbn [enumerate_from foldl]. rewrite add_result_block, IH, imap_cons.
    cbn [foldr]. rewrite Nat.add_0_r, string_app_assoc.
    do 3 f_equal. apply imap_ext. intros i x _. simpl. f_equal. lia.
Qed.

Lemma results_prompt_cons (doc : Document) (docs : list Document) :
  results_prompt (doc :: docs) = results_body (doc :: docs).
Proof.
  unfold results_prompt, results_body, enumerate.
  rewrite foldl_add_result. reflexivity.
Qed.

Lemma foldl_add_message (input : list MessageLike) (messages : list BaseMessage) :
  foldl add_message messages input = messages ++ flat_map rendered input.
Proof.
  revert messages. induction input as [|m input IH]; intros messages; simpl.
  - by rewrite app_nil_r.
  - rewrite IH. destruct m as [b|[q|results|r|tag data]]; simpl;
      try reflexivity; by rewrite <- app_assoc.
Qed.

Lemma prompt_generator_flat_map (input : list MessageLike) :
  prompt_generator input = flat_map rendered input.
Proof. unfold prompt_generator. apply foldl_add_message. Qed.

Lemma prompt_generator_middle (before after : list MessageLike) (m : MessageLike) :
  prompt_generator (before ++ m :: after)
  = prompt_generator before ++ rendered m ++ prompt_generator after.
Proof.
  rewrite !prompt_generator_flat_map, flat_map_app. reflexivity.
Qed.

(** C8, as amended: a [RetrievalResponse] with at least one result is
    rendered, in its place among the other messages, as one human-authored
    message whose content is ["Context: <result>\n" + body + "\n</result>"],
    the body being the blocks of the results in order; the block of the
    result at zero-based index N is the line ["--- Result N ---"], the
    line ["Text:"], the text body, the value of each present field among
    title, description, source followed by a line feed and without a
    label, and the line ["--- End Result N ---"].  For the one result with
    text [A] and title [T] the content is spelled out. *)
Theorem prompt_generator_renders_results
    (before after : list MessageLike) (doc : Document) (docs : list Document) :
  prompt_generator (before ++ Internal (RetrievalResponse (doc :: docs)) :: after)
  = prompt_generator before
    ++ HumanMessage (wrap_context (results_body (doc :: docs)))
    :: prompt_generator after
  /\ results_body (doc :: docs)
     = result_block 0 doc +:+ foldr String.append "" (imap (result_block ∘ S) docs)
  /\ forall A T : string,
       prompt_generator [Internal (RetrievalResponse [mkDocument A {[ "title" := T ]}])]
       = [HumanMessage
            (("Context: <result>" +:+ LF)
             +:+ (("--- Result 0 ---" +:+ LF)
                  +:+ ("Text:" +:+ LF)
                  +:+ A
                  +:+ (T +:+ LF)
                  +:+ ("--- End Result 0 ---" +:+ LF))
             +:+ (LF +:+ "</result>"))].
Proof.
  split; [|split].
  - rewrite prompt_generator_middle. cbn [rendered app].
    by rewrite results_prompt_cons.
  - unfold results_body. by rewrite imap_cons.
  - intros A T. rewrite prompt_generator_flat_map.
    cbn [flat_map rendered app]. rewrite results_prompt_cons.
    unfold results_body, wrap_context, result_block, field_lines.
    cbn [imap foldr omap list_omap page_content metadata].
    rewrite lookup_singleton_eq, !lookup_singleton_ne by done.
    cbn [fmap option_fmap option_map foldr].
    rewrite !string_app_nil_r. vm_compute. reflexivity.
Qed.

(** C8, the wording of the claim fails: for the one result with text [A]
    and title [T] the rendered content has the line ["Text:"] between the
    opening marker and the text body, so it is not the content made of the
    marker, the text body, the field values and the closing marker alone,
    whether a marker is taken bare or with its line feed. *)
Lemma prompt_generator_block_has_text_line :
  prompt_generator [Internal (RetrievalResponse [demo_doc])]
  = [HumanMessage
       ("Context: <result>" +:+ LF +:+ "--- Result 0 ---" +:+ LF +:+ "Text:" +:+ LF
        +:+ "AT" +:+ LF +:+ "--- End Result 0 ---" +:+ LF +:+ LF +:+ "</result>")]
  /\ prompt_generator [Internal (RetrievalResponse [demo_doc])]
     <> [HumanMessage (spec_results_content "" [demo_doc])]
  /\ prompt_generator [Internal (RetrievalResponse [demo_doc])]
     <> [HumanMessage (spec_results_content LF [demo_doc])].
Proof.
  split; [vm_compute; reflexivity|].
  split; vm_compute; intros H; discriminate H.
Qed.

(** C9: a [RetrievalResponse] without results is rendered, in its place
    among the other messages, as exactly one human-authored message with
    the content ["Context: <result>\nFound no results for the query.\n</result>"]. *)
Theorem prompt_generator_no_results (before after : list MessageLike) :
  prompt_generator (before ++ Internal (RetrievalResponse []) :: after)
  = prompt_generator before
    ++ HumanMessage
         ("Context: <result>" +:+ LF +:+ "Found no results for the query."
          +:+ LF +:+ "</result>")
    :: prompt_generator after.
Proof.
  rewrite prompt_generator_middle. reflexivity.
Qed.

Lemma sublist_chat_rendered (input : list MessageLike) :
  omap as_chat input `sublist_of` flat_map rendered input.
Proof.
  induction input as [|m input IH]; simpl; [constructor|].
  destruct m as [b|[q|results|r|tag data]]; simpl.
  - by apply sublist_skip.
  - exact IH.
  - by apply sublist_cons.
  - exact IH.
  - exact IH.
Qed.

(** C10: [prompt_generator] is a function of its input sequence alone,
    and the input events contribute to the output one by one, in order:
    a chat message contributes itself, a [RetrievalResponse] its one
    synthetic message, any other event nothing.  So the chat messages of
    the input are found in the output unchanged and in their order, and
    once the retrieval responses are set aside the output is exactly the
    chat messages of the input. *)
Theorem prompt_generator_passes_chat_messages (input : list MessageLike) :
  prompt_generator input = flat_map rendered input
  /\ (forall before m after,
        prompt_generator (before ++ m :: after)
        = prompt_generator before
          ++ match m with
             | Chat b => [b]
             | Internal (RetrievalResponse results) =>
                 [HumanMessage (wrap_context (results_prompt results))]
             | Internal (RetrievalRequest _) | Internal (AgentFinish _)
             | Internal (OtherInternal _ _) => []
             end
          ++ prompt_generator after)
  /\ omap as_chat input `sublist_of` prompt_generator input
  /\ prompt_generator (List.filter (fun m => negb (is_RetrievalResponse m)) input)
     = omap as_chat input
  /\ length (prompt_generator input)
     = length (omap as_chat input) + length (List.filter is_RetrievalResponse input).
Proof.
  split; [apply prompt_generator_flat_map|].
  split.
  { intros before m after. rewrite prompt_generator_middle.
    by destruct m as [b|[q|results|r|tag data]]. }
  split.
  { rewrite prompt_generator_flat_map. apply sublist_chat_rendered. }
  rewrite !prompt_generator_flat_map. split.
  - induction input as [|m input IH]; simpl; [reflexivity|].
    destruct m as [b|[q|results|r|tag data]]; simpl; by rewrite ?IH.
  - unfold omap. induction input as [|m input IH]; [reflexivity|].
    destruct m as [b|[q|results|r|tag data]]; simpl; rewrite ?IH; lia.
Qed.

(** ** Properties of [step] *)

Section StepProperties.

Context {World Config : Type}.
Implicit Types (self : RagAgent World Config) (s : State World Config).
Implicit Types (log earlier : list MessageLike) (config : option Config).

(** C2: on a log whose last event is a human-authored chat message with
    content [C], [step] returns the one-element list holding
    [RetrievalRequest(query=C)] and leaves the state as it was: the world
    is untouched and the trace of collaborator calls has not grown, so
    neither the retriever nor the LLM program was invoked. *)
Theorem step_human_message self earlier C config s :
  step self (earlier ++ [Chat (HumanMessage C)]) config s
  = (inr [Internal (RetrievalRequest C)], s).
Proof.
  unfold step. rewrite last_snoc. reflexivity.
Qed.

(** C3: on a log whose last event is a [RetrievalRequest] R, [step] makes
    one call [retriever.invoke(R, config)] and returns the one-element
    list holding the response of that call (or raises what the call
    raises). *)
Theorem step_retrieval_request self earlier q config s :
  step self (earlier ++ [Internal (RetrievalRequest q)]) config s
  = let '(r, w) := retriever self (Internal (RetrievalRequest q)) config (world s) in
    (match r with
     | inl e => inl e
     | inr response => inr [response]
     end,
     mkState w (calls s ++ [RetrieverCall (Internal (RetrievalRequest q)) config])
             (yielded s)).
Proof.
  unfold step. rewrite last_snoc. cbn beta iota.
  unfold bind, invoke_retriever, ret, record.
  destruct (retriever self _ config (world s)) as [[e|response] w]; reflexivity.
Qed.

(** C4: on the empty log, on a log whose last event is an AI-authored chat
    message, and on a log whose last event is an [AgentFinish], [step]
    returns the empty list and leaves the state as it was: no collaborator
    was invoked. *)
Theorem step_terminal self earlier content result config s :
  step self [] config s = (inr [], s)
  /\ step self (earlier ++ [Chat (AIMessage content)]) config s = (inr [], s)
  /\ step self (earlier ++ [Internal (AgentFinish result)]) config s = (inr [], s).
Proof.
  unfold step. rewrite !last_snoc. repeat split; reflexivity.
Qed.

(** C5: on a log whose last event is none of an AI-authored message, an
    [AgentFinish], a human-authored message and a [RetrievalRequest],
    [step] makes one call of the LLM program on the whole log and its
    outcome is the outcome of that call: the list the LLM program
    returns, whatever its length; [step] adds no error of its own. *)
Theorem step_default_branch self earlier m config s :
  is_AIMessage m = false ->
  is_AgentFinish m = false ->
  is_HumanMessage m = false ->
  is_RetrievalRequest m = false ->
  step self (earlier ++ [m]) config s
  = let '(r, w) := llm_program self (earlier ++ [m]) config (world s) in
    (r, mkState w (calls s ++ [LLMCall (earlier ++ [m]) config]) (yielded s)).
Proof.
  intros Hai Hfinish Hhuman Hrequest.
  unfold step. rewrite last_snoc.
  destruct m as [[c|c|c|nm c|role c]|[q|results|r|tag data]];
    try discriminate; reflexivity.
Qed.

End StepProperties.

Lemma step_default_branch_witness :
  is_AIMessage (Internal (RetrievalResponse [])) = false
  /\ is_AgentFinish (Internal (RetrievalResponse [])) = false
  /\ is_HumanMessage (Internal (RetrievalResponse [])) = false
  /\ is_RetrievalRequest (Internal (RetrievalResponse [])) = false
  /\ step demo_agent
       ([Chat (HumanMessage "q"); Internal (RetrievalRequest "q")]
          ++ [Internal (RetrievalResponse [])]) None demo_state
     = (inr [Internal (OtherInternal "FunctionCallRequest" "lookup")],
        mkState 1
          [LLMCall [Chat (HumanMessage "q"); Internal (RetrievalRequest "q");
                    Internal (RetrievalResponse [])] None]
          []).
Proof.
  do 4 (split; [reflexivity|]).
  exact (step_default_branch demo_agent
           [Chat (HumanMessage "q"); Internal (RetrievalRequest "q")]
           (Internal (RetrievalResponse [])) None demo_state
           eq_refl eq_refl eq_refl eq_refl).
Defined.

(** ** Properties of [run] *)

Section RunProperties.

Context {World Config : Type}.
Implicit Types (self : RagAgent World Config) (s : State World Config).
Implicit Types (log messages : list MessageLike) (config : option Config).
Implicit Types (cs extra : list (Call Config)).

Lemma for_range_S {S : Type} (n : nat)
    (body : S -> M World Config (Control * S)) (local : S) s :
  for_range (Datatypes.S n) body local s
  = match body local s with
    | (inl e, s') => (inl e, s')
    | (inr (Break, local'), s') => (inr local', s')
    | (inr (Next, local'), s') => for_range n body local' s'
    end.
Proof.
  cbn [for_range]. unfold bind.
  by destruct (body local s) as [[e|[[|] local']] s'].
Qed.

Lemma yield_from_spec (new_messages : list MessageLike) s :
  yield_from new_messages s
  = (inr tt, mkState (world s) (calls s) (yielded s ++ new_messages)).
Proof.
  revert s. induction new_messages as [|m rest IH]; intros [w cs ys].
  - cbn. by rewrite app_nil_r.
  - cbn [yield_from]. unfold bind, yield. rewrite IH. cbn.
    by rewrite <- app_assoc.
Qed.

Lemma process_returns self log s log1 s1 :
  process self log s = (inr log1, s1) ->
  calls s1 = calls s ++ [ProcessCall log] /\ yielded s1 = yielded s.
Proof.
  unfold process. destruct (memory_manager self) as [mm|].
  - destruct (mm log (world s)) as [r w]. intros [= _ <-]. by split.
  - unfold raise. intros [= ].
Qed.

Lemma process_trace self log s r s1 :
  process self log s = (r, s1) ->
  yielded s1 = yielded s
  /\ ((calls s1 = calls s /\ memory_manager self = None)
      \/ calls s1 = calls s ++ [ProcessCall log]).
Proof.
  unfold process. destruct (memory_manager self) as [mm|].
  - destruct (mm log (world s)) as [r' w]. intros [= _ <-]. split; [done|by right].
  - unfold raise. intros [= _ <-]. split; [done|by left].
Qed.

Lemma step_trace self log config s r s2 :
  step self log config s = (r, s2) ->
  yielded s2 = yielded s
  /\ (calls s2 = calls s
      \/ exists c, is_process_call c = false /\ calls s2 = calls s ++ [c]).
Proof.
  unfold step.
  assert (Hllm : invoke_llm_program self log config s = (r, s2) ->
                 yielded s2 = yielded s
                 /\ (calls s2 = calls s
                     \/ exists c, is_process_call c = false
                                  /\ calls s2 = calls s ++ [c])).
  { unfold invoke_llm_program.
    destruct (llm_program self log config (world s)) as [r' w].
    intros [= _ <-]. split; [done|]. right.
    eexists. split; [|reflexivity]. reflexivity. }
  destruct (last log) as [[[c|c|c|nm c|role c]|[q|results|res|tag data]]|];
    try exact Hllm; try (intros [= _ <-]; split; [done|by left]).
  unfold bind, invoke_retriever, ret.
  destruct (retriever self _ config (world s)) as [[e|response] w];
    intros [= _ <-]; (split; [done|]); right;
    (eexists; split; [|reflexivity]); reflexivity.
Qed.

Lemma process_calls_app cs extra :
  process_calls (cs ++ extra) = process_calls cs + process_calls extra.
Proof. unfold process_calls. by rewrite List.filter_app, length_app. Qed.

Lemma round_calls_count log extra : round_calls log extra -> process_calls extra <= 1.
Proof.
  intros [| |c Hc]; unfold process_calls; cbn; [lia|lia|].
  rewrite Hc. cbn. lia.
Qed.

Lemma rounds_trace_round log extra cs :
  round_calls log extra -> rounds_trace cs = true ->
  rounds_trace (extra ++ cs) = true.
Proof.
  intros [| |c Hc] Hcs; cbn.
  - exact Hcs.
  - destruct cs as [|[m|rq cfg|m cfg] cs]; cbn in *; done.
  - destruct c; cbn in *; done.
Qed.

Lemma run_body_trace self config log s r s1 :
  run_body self config log s = (r, s1) ->
  exists extra,
    calls s1 = calls s ++ extra
    /\ round_calls log extra
    /\ (is_Some (memory_manager self) -> extra <> []).
Proof.
  unfold run_body, bind.
  destruct (process self log s) as [[e|log1] sp] eqn:Hp.
  - intros [= _ <-]. apply process_trace in Hp as [_ [[-> Hnone]| ->]].
    + exists []. rewrite app_nil_r. split; [done|]. split; [constructor|].
      rewrite Hnone. by intros [? [=]].
    + eexists. split; [done|]. split; [constructor|done].
  - apply process_returns in Hp as [Hp _].
    destruct (step self log1 config sp) as [[e|new] ss] eqn:Hs.
    + intros [= _ <-]. apply step_trace in Hs as [_ [Hs|(c & Hc & Hs)]];
        rewrite Hs, Hp.
      * eexists. split; [done|]. split; [constructor|done].
      * rewrite <- app_assoc. eexists. split; [done|].
        split; [by constructor|done].
    + intros Hrun. assert (calls s1 = calls ss) as ->.
      { destruct new as [|m new]; [by injection Hrun as _ <-|].
        rewrite yield_from_spec in Hrun. by injection Hrun as _ <-. }
      clear Hrun. apply step_trace in Hs as [_ [Hs|(c & Hc & Hs)]];
        rewrite Hs, Hp.
      * eexists. split; [done|]. split; [constructor|done].
      * rewrite <- app_assoc. eexists. split; [done|].
        split; [by constructor|done].
Qed.

Lemma for_range_trace self config (n : nat) log s r s' :
  for_range n (run_body self config) log s = (r, s') ->
  exists extra,
    calls s' = calls s ++ extra
    /\ process_calls extra <= n
    /\ rounds_trace extra = true.
Proof.
  revert log s. induction n as [|n IH]; intros log s.
  - intros [= _ <-]. exists []. rewrite app_nil_r. repeat split. cbn. lia.
  - cbn [for_range]. unfold bind at 1.
    destruct (run_body self config log s) as [[e|[[|] log1]] s1] eqn:Hb;
      apply run_body_trace in Hb as (extra & Hcalls & Hround & _).
    + intros [= _ <-]. exists extra. split; [done|]. split.
      * apply round_calls_count in Hround. lia.
      * rewrite <- (app_nil_r extra). by eapply rounds_trace_round.
    + intros (extra' & Hcalls' & Hcount & Hshape)%IH.
      exists (extra ++ extra'). rewrite Hcalls', Hcalls, <- app_assoc.
      split; [done|]. split.
      * rewrite process_calls_app. apply round_calls_count in Hround. lia.
      * by eapply rounds_trace_round.
    + intros [= _ <-]. exists extra. split; [done|]. split.
      * apply round_calls_count in Hround. lia.
      * rewrite <- (app_nil_r extra). by eapply rounds_trace_round.
Qed.

Lemma run_trace self messages config (max_iterations : option Z) s :
  exists extra,
    calls (run self messages config max_iterations s).2 = calls s ++ extra
    /\ process_calls extra <= Z.to_nat (default 100%Z max_iterations)
    /\ rounds_trace extra = true.
Proof.
  unfold run, bind.
  destruct (for_range _ _ messages s) as [[e|log] s'] eqn:Hloop;
    apply for_range_trace in Hloop; exact Hloop.
Qed.

Lemma run_unfold self messages config (max_iterations : Z) s :
  (0 < max_iterations)%Z ->
  run self messages config (Some max_iterations) s
  = match process self messages s with
    | (inl e, s1) => (inl e, s1)
    | (inr log, s1) =>
        match step self log config s1 with
        | (inl e, s2) => (inl e, s2)
        | (inr [], s2) => (inr tt, s2)
        | (inr (m :: rest), s2) =>
            run self (log ++ m :: rest) config (Some (max_iterations - 1)%Z)
              (mkState (world s2) (calls s2) (yielded s2 ++ m :: rest))
        end
    end.
Proof.
  intros Hpos. unfold run.
  change (default 100%Z (Some max_iterations)) with max_iterations.
  change (default 100%Z (Some (max_iterations - 1)%Z)) with (max_iterations - 1)%Z.
  replace (Z.to_nat max_iterations) with (S (Z.to_nat (max_iterations - 1))) by lia.
  cbn [for_range]. unfold run_body, bind.
  destruct (process self messages s) as [[e|log] s1]; [reflexivity|].
  destruct (step self log config s1) as [[e|[|m rest]] s2]; try reflexivity.
  rewrite yield_from_spec. reflexivity.
Qed.

Lemma run_body_with_manager self mm config log s :
  memory_manager self = Some mm ->
  run_body self config log s
  = match mm log (world s) with
    | (inl e, w) => (inl e, mkState w (calls s ++ [ProcessCall log]) (yielded s))
    | (inr log1, w) =>
        match step self log1 config
                (mkState w (calls s ++ [ProcessCall log]) (yielded s)) with
        | (inl e, s2) => (inl e, s2)
        | (inr [], s2) => (inr (Break, log1), s2)
        | (inr (m :: rest), s2) =>
            (inr (Next, log1 ++ m :: rest),
             mkState (world s2) (calls s2) (yielded s2 ++ m :: rest))
        end
    end.
Proof.
  intros Hmm. unfold run_body, bind, process. rewrite Hmm. unfold record.
  destruct (mm log (world s)) as [[e|log1] w]; [reflexivity|].
  destruct (step self log1 config _) as [[e|[|m rest]] s2]; try reflexivity.
  by rewrite yield_from_spec.
Qed.

Lemma for_range_spec_rounds self mm config (n : nat) log s :
  memory_manager self = Some mm ->
  match for_range n (run_body self config) log s with
  | (inl e, s') => (inl e, s')
  | (inr _, s') => (inr tt, s')
  end
  = spec_rounds self mm config n log s.
Proof.
  intros Hmm. revert log s. induction n as [|n IH]; intros log s; [reflexivity|].
  rewrite for_range_S, (run_body_with_manager self mm) by done.
  cbn [spec_rounds].
  destruct (mm log (world s)) as [[e|log1] w]; [reflexivity|].
  destruct (step self log1 config _) as [[e|[|m rest]] s2]; try reflexivity.
  apply IH.
Qed.

(** C1: with a positive [max_iterations], [run] makes at most
    [max_iterations] rounds (each round starts with one call of the
    memory manager, and the trace gains at most that many).  The whole
    run of an agent with the memory manager [mm] is the rounds of the
    specification, [spec_rounds], made with [mm].  Round by round: [run]
    calls [mm] on the log (an agent without a memory manager raises
    there) and, with the log [mm] returns in place of the old one,
    computes [new = step(log, config)], ends normally when [new] is
    empty, and otherwise yields the elements of [new] one at a time in
    their order, appends [new] to the log, and goes on with the rounds
    that are left; an exception of [mm] or of [step] ends the run.  When
    the first step is empty the run ends having produced no event. *)
Theorem run_rounds self messages config (max_iterations : Z) s :
  (0 < max_iterations)%Z ->
  process_calls (calls (run self messages config (Some max_iterations) s).2)
    <= process_calls (calls s) + Z.to_nat max_iterations
  /\ (forall mm,
        memory_manager self = Some mm ->
        run self messages config (Some max_iterations) s
        = spec_rounds self mm config (Z.to_nat max_iterations) messages s)
  /\ run self messages config (Some max_iterations) s
     = match memory_manager self with
       | None =>
           (inl (AttributeError "'NoneType' object has no attribute 'process'"), s)
       | Some mm =>
           match mm messages (world s) with
           | (inl e, w) =>
               (inl e, mkState w (calls s ++ [ProcessCall messages]) (yielded s))
           | (inr log, w) =>
               match step self log config
                       (mkState w (calls s ++ [ProcessCall messages]) (yielded s)) with
               | (inl e, s2) => (inl e, s2)
               | (inr [], s2) => (inr tt, s2)
               | (inr (m :: rest), s2) =>
                   run self (log ++ m :: rest) config (Some (max_iterations - 1)%Z)
                     (mkState (world s2) (calls s2) (yielded s2 ++ m :: rest))
               end
           end
       end
  /\ (forall new s0,
        yield_from new s0
        = (inr tt, mkState (world s0) (calls s0) (yielded s0 ++ new)))
  /\ (forall m rest s0,
        yield_from (m :: rest) s0
        = yield_from rest (mkState (world s0) (calls s0) (yielded s0 ++ [m])))
  /\ (forall mm log w s2,
        memory_manager self = Some mm ->
        mm messages (world s) = (inr log, w) ->
        step self log config
          (mkState w (calls s ++ [ProcessCall messages]) (yielded s))
        = (inr [], s2) ->
        run self messages config (Some max_iterations) s = (inr tt, s2)
        /\ yielded s2 = yielded s)
  /\ (forall log s1 s2,
        process self messages s = (inr log, s1) ->
        step self log config s1 = (inr [], s2) ->
        run self messages config (Some max_iterations) s = (inr tt, s2)
        /\ yielded s2 = yielded s).
Proof.
  intros Hpos.
  assert (Hround :
    run self messages config (Some max_iterations) s
    = match memory_manager self with
      | None =>
          (inl (AttributeError "'NoneType' object has no attribute 'process'"), s)
      | Some mm =>
          match mm messages (world s) with
          | (inl e, w) =>
              (inl e, mkState w (calls s ++ [ProcessCall messages]) (yielded s))
          | (inr log, w) =>
              match step self log config
                      (mkState w (calls s ++ [ProcessCall messages]) (yielded s)) with
              | (inl e, s2) => (inl e, s2)
              | (inr [], s2) => (inr tt, s2)
              | (inr (m :: rest), s2) =>
                  run self (log ++ m :: rest) config (Some (max_iterations - 1)%Z)
                    (mkState (world s2) (calls s2) (yielded s2 ++ m :: rest))
              end
          end
      end).
  { rewrite run_unfold by done. unfold process, raise, record.
    destruct (memory_manager self) as [mm|]; [|reflexivity].
    by destruct (mm messages (world s)) as [[e|log] w]. }
  split; [|split; [|split; [|split; [|split; [|split]]]]].
  - destruct (run_trace self messages config (Some max_iterations) s)
      as (extra & -> & Hcount & _).
    rewrite process_calls_app.
    change (default 100%Z (Some max_iterations)) with max_iterations in Hcount.
    lia.
  - intros mm Hmm. unfold run, bind, ret.
    change (default 100%Z (Some max_iterations)) with max_iterations.
    by apply for_range_spec_rounds.
  - exact Hround.
  - apply yield_from_spec.
  - reflexivity.
  - intros mm log w s2 Hmm Hcall Hs. rewrite Hround, Hmm, Hcall, Hs.
    split; [reflexivity|]. by apply step_trace in Hs as [-> _].
  - intros log s1 s2 Hp Hs. rewrite run_unfold, Hp, Hs by done.
    split; [reflexivity|].
    apply process_returns in Hp as [_ <-]. by apply step_trace in Hs as [-> _].
Qed.

Lemma for_range_invariant self config
    (Inv : list MessageLike -> State World Config -> Prop) :
  (forall log s,
      Inv log s ->
      exists log1 s1 new s2,
        process self log s = (inr log1, s1)
        /\ step self log1 config s1 = (inr new, s2)
        /\ new <> []
        /\ Inv (log1 ++ new) (mkState (world s2) (calls s2) (yielded s2 ++ new))) ->
  forall (n : nat) log s,
    Inv log s ->
    exists log' s',
      for_range n (run_body self config) log s = (inr log', s')
      /\ Inv log' s'
      /\ process_calls (calls s') = process_calls (calls s) + n.
Proof.
  intros Hround. induction n as [|n IH]; intros log s Hinv.
  - exists log, s. repeat split; [done|lia].
  - destruct (Hround log s Hinv) as (log1 & s1 & new & s2 & Hp & Hs & Hnew & Hinv').
    destruct (IH _ _ Hinv') as (log' & s' & Hloop & Hinv'' & Hcount).
    exists log', s'. split; [|split; [done|]].
    + cbn [for_range]. unfold bind at 1. unfold run_body, bind.
      rewrite Hp, Hs. destruct new as [|m new]; [done|].
      rewrite yield_from_spec. exact Hloop.
    + rewrite Hcount. cbn [calls].
      apply process_returns in Hp as [Hp _].
      apply step_trace in Hs as [_ [Hs|(c & Hc & Hs)]]; rewrite Hs, Hp;
        rewrite !process_calls_app; unfold process_calls; cbn;
        rewrite ?Hc; cbn; lia.
Qed.

(** C6: [run] always returns, and the rounds it has made are at most
    [max_iterations], 100 when the caller gives none.  When no round ever
    ends the run (the memory manager and [step] never raise and [step]
    never returns the empty list, on the logs the run goes through), the
    run makes exactly that many rounds and then returns normally: it
    raises nothing, and whatever the rounds have kept true of the log and
    of the state (the events produced among them) is true at the end, so
    nothing is produced beyond what the rounds produced. *)
Theorem run_terminates self messages config (max_iterations : option Z) s :
  (exists r s',
      run self messages config max_iterations s = (r, s')
      /\ process_calls (calls s')
         <= process_calls (calls s) + Z.to_nat (default 100%Z max_iterations))
  /\ run self messages config None s = run self messages config (Some 100%Z) s
  /\ forall Inv : list MessageLike -> State World Config -> Prop,
       Inv messages s ->
       (forall log s0,
           Inv log s0 ->
           exists log1 s1 new s2,
             process self log s0 = (inr log1, s1)
             /\ step self log1 config s1 = (inr new, s2)
             /\ new <> []
             /\ Inv (log1 ++ new)
                  (mkState (world s2) (calls s2) (yielded s2 ++ new))) ->
       exists log' s',
         run self messages config max_iterations s = (inr tt, s')
         /\ Inv log' s'
         /\ process_calls (calls s')
            = process_calls (calls s) + Z.to_nat (default 100%Z max_iterations).
Proof.
  split; [|split; [reflexivity|]].
  - destruct (run_trace self messages config max_iterations s)
      as (extra & Hcalls & Hcount & _).
    destruct (run self messages config max_iterations s) as [r s'].
    exists r, s'. split; [done|]. cbn [snd] in Hcalls.
    rewrite Hcalls, process_calls_app. lia.
  - intros Inv Hinit Hround.
    destruct (for_range_invariant self config Inv Hround
                (Z.to_nat (default 100%Z max_iterations)) messages s Hinit)
      as (log' & s' & Hloop & Hinv & Hcount).
    exists log', s'. split; [|by split].
    unfold run, bind. by rewrite Hloop.
Qed.

Lemma for_range_first_call self config mm (n : nat) log s r s' :
  memory_manager self = Some mm ->
  for_range (S n) (run_body self config) log s = (r, s') ->
  exists rest, calls s' = calls s ++ ProcessCall log :: rest.
Proof.
  intros Hmm. cbn [for_range]. unfold bind at 1.
  destruct (run_body self config log s) as [[e|[[|] log1]] s1] eqn:Hb;
    apply run_body_trace in Hb as (extra & Hcalls & Hround & Hne);
    (assert (exists rest, extra = ProcessCall log :: rest) as [rest ->];
      [destruct Hround; [by destruct Hne; [rewrite Hmm|]|by eexists..]|]).
  - intros [= _ <-]. by eexists.
  - intros (extra' & -> & _)%for_range_trace.
    rewrite Hcalls, <- app_assoc. by eexists.
  - intros [= _ <-]. by eexists.
Qed.

(** C7: [__init__] puts no memory manager in place of one the caller
    leaves out: the attribute is then [None], and a run of such an agent
    with a positive [max_iterations] raises at the attribute access of its
    first round, before any event is produced and before any collaborator
    is called; the log is not passed on unchanged.  With a memory manager,
    the first thing a run does is call it on the log, and in the trace of
    the whole run no call of the retriever or of the LLM program comes
    without a call of the memory manager just before it. *)
Theorem memory_manager_required
    {LanguageModel PromptGenerator Tool Parser BaseRetriever : Type}
    (create_llm_program :
       LanguageModel -> PromptGenerator -> option (list Tool) -> option Parser ->
       option (list string) -> bool -> LLMProgram World Config)
    (create_retriever : option BaseRetriever -> RetrieverAdapter World Config)
    llm prompt_generator tools stop parser retriever
    messages config (max_iterations : Z) s :
  (0 < max_iterations)%Z ->
  memory_manager
    (__init__ create_llm_program create_retriever
       llm prompt_generator tools stop parser retriever None) = None
  /\ run (__init__ create_llm_program create_retriever
            llm prompt_generator tools stop parser retriever None)
         messages config (Some max_iterations) s
     = (inl (AttributeError "'NoneType' object has no attribute 'process'"), s)
  /\ forall mm : WorkingMemoryManager World,
       memory_manager
         (__init__ create_llm_program create_retriever
            llm prompt_generator tools stop parser retriever (Some mm)) = Some mm
       /\ exists rest,
           calls (run (__init__ create_llm_program create_retriever
                         llm prompt_generator tools stop parser retriever (Some mm))
                      messages config (Some max_iterations) s).2
           = calls s ++ ProcessCall messages :: rest
           /\ rounds_trace (ProcessCall messages :: rest) = true.
Proof.
  intros Hpos. split; [reflexivity|]. split.
  - by rewrite run_unfold.
  - intros mm. split; [reflexivity|].
    set (self := __init__ _ _ _ _ _ _ _ _ (Some mm)).
    destruct (run_trace self messages config (Some max_iterations) s)
      as (extra & Hcalls & _ & Hshape).
    assert (exists rest,
               calls (run self messages config (Some max_iterations) s).2
               = calls s ++ ProcessCall messages :: rest) as [rest Hfirst].
    { unfold run.
      change (default 100%Z (Some max_iterations)) with max_iterations.
      replace (Z.to_nat max_iterations)
        with (S (Z.to_nat (max_iterations - 1))) by lia.
      unfold bind at 1.
      destruct (for_range _ _ messages s) as [[e|log] s'] eqn:Hloop;
        by apply (for_range_first_call self config mm) in Hloop. }
    exists rest. split; [done|].
    rewrite Hfirst in Hcalls. by apply app_inv_head in Hcalls as ->.
Qed.

End RunProperties.

(** ** The properties of [run] on the example agent *)

Lemma run_rounds_witness :
  (0 < 2)%Z
  /\ (process_calls (calls (run window_agent window_log None (Some 2%Z) demo_state).2)
        <= process_calls (calls demo_state) + Z.to_nat 2
      /\ (forall mm,
            memory_manager window_agent = Some mm ->
            run window_agent window_log None (Some 2%Z) demo_state
            = spec_rounds window_agent mm None (Z.to_nat 2) window_log demo_state)
      /\ run window_agent window_log None (Some 2%Z) demo_state
         = match memory_manager window_agent with
           | None =>
               (inl (AttributeError "'NoneType' object has no attribute 'process'"),
                demo_state)
           | Some mm =>
               match mm window_log (world demo_state) with
               | (inl e, w) =>
                   (inl e,
                    mkState w (calls demo_state ++ [ProcessCall window_log])
                      (yielded demo_state))
               | (inr log, w) =>
                   match step window_agent log None
                           (mkState w (calls demo_state ++ [ProcessCall window_log])
                              (yielded demo_state)) with
                   | (inl e, s2) => (inl e, s2)
                   | (inr [], s2) => (inr tt, s2)
                   | (inr (m :: rest), s2) =>
                       run window_agent (log ++ m :: rest) None (Some (2 - 1)%Z)
                         (mkState (world s2) (calls s2) (yielded s2 ++ m :: rest))
                   end
               end
           end
      /\ (forall new (s0 : State nat unit),
            yield_from new s0
            = (inr tt, mkState (world s0) (calls s0) (yielded s0 ++ new)))
      /\ (forall m rest (s0 : State nat unit),
            yield_from (m :: rest) s0
            = yield_from rest (mkState (world s0) (calls s0) (yielded s0 ++ [m])))
      /\ (forall mm log w s2,
            memory_manager window_agent = Some mm ->
            mm window_log (world demo_state) = (inr log, w) ->
            step window_agent log None
              (mkState w (calls demo_state ++ [ProcessCall window_log])
                 (yielded demo_state))
            = (inr [], s2) ->
            run window_agent window_log None (Some 2%Z) demo_state = (inr tt, s2)
            /\ yielded s2 = yielded demo_state)
      /\ (forall log s1 s2,
            process window_agent window_log demo_state = (inr log, s1) ->
            step window_agent log None s1 = (inr [], s2) ->
            run window_agent window_log None (Some 2%Z) demo_state = (inr tt, s2)
            /\ yielded s2 = yielded demo_state)).
Proof.
  split; [lia|].
  apply (run_rounds window_agent window_log None 2%Z demo_state). lia.
Defined.

Lemma run_terminates_witness :
  demo_invariant [Internal (RetrievalResponse [])] demo_state
  /\ (forall log s0,
         demo_invariant log s0 ->
         exists log1 s1 new s2,
           process demo_agent log s0 = (inr log1, s1)
           /\ step demo_agent log1 None s1 = (inr new, s2)
           /\ new <> []
           /\ demo_invariant (log1 ++ new)
                (mkState (world s2) (calls s2) (yielded s2 ++ new)))
  /\ exists log' s',
       run demo_agent [Internal (RetrievalResponse [])] None (Some 3%Z) demo_state
       = (inr tt, s')
       /\ demo_invariant log' s'
       /\ process_calls (calls s')
          = process_calls (calls demo_state) + Z.to_nat (default 100%Z (Some 3%Z)).
Proof.
  assert (Hinit : demo_invariant [Internal (RetrievalResponse [])] demo_state)
    by (right; reflexivity).
  assert (Hround : forall log s0,
             demo_invariant log s0 ->
             exists log1 s1 new s2,
               process demo_agent log s0 = (inr log1, s1)
               /\ step demo_agent log1 None s1 = (inr new, s2)
               /\ new <> []
               /\ demo_invariant (log1 ++ new)
                    (mkState (world s2) (calls s2) (yielded s2 ++ new))).
  { intros log s0 Hinv. do 4 eexists.
    split; [reflexivity|]. split.
    - unfold step. destruct Hinv as [-> | ->]; reflexivity.
    - split; [discriminate|]. left. apply last_snoc. }
  split; [exact Hinit|]. split; [exact Hround|].
  exact (proj2 (proj2 (run_terminates demo_agent [Internal (RetrievalResponse [])]
                         None (Some 3%Z) demo_state))
           demo_invariant Hinit Hround).
Defined.

Lemma memory_manager_required_witness :
  (0 < 3)%Z
  /\ (memory_manager
        (__init__ demo_create_llm_program demo_create_retriever
           tt tt None None None None None) = None
      /\ run (__init__ demo_create_llm_program demo_create_retriever
                tt tt None None None None None)
             demo_log None (Some 3%Z) demo_state
         = (inl (AttributeError "'NoneType' object has no attribute 'process'"),
            demo_state)
      /\ forall mm : WorkingMemoryManager nat,
           memory_manager
             (__init__ demo_create_llm_program demo_create_retriever
                tt tt None None None None (Some mm)) = Some mm
           /\ exists rest,
               calls (run (__init__ demo_create_llm_program demo_create_retriever
                             tt tt None None None None (Some mm))
                          demo_log None (Some 3%Z) demo_state).2
               = calls demo_state ++ ProcessCall demo_log :: rest
               /\ rounds_trace (ProcessCall demo_log :: rest) = true).
Proof.
  split; [lia|].
  apply (memory_manager_required demo_create_llm_program demo_create_retriever
           tt tt None None None None demo_log None 3%Z demo_state).
  lia.
Defined.

(** ** Further properties of [prompt_generator] *)

Lemma prompt_generator_chat_only (chat : list BaseMessage) :
  prompt_generator (Chat <$> chat) = chat.
Proof.
  rewrite prompt_generator_flat_map.
  induction chat as [|b chat IH]; [reflexivity|].
  cbn [fmap list_fmap flat_map rendered app]. f_equal. exact IH.
Qed.

(** X1: the output of [prompt_generator], taken again as a log, is
    rendered to itself. *)
Theorem prompt_generator_idempotent (input : list MessageLike) :
  prompt_generator (Chat <$> prompt_generator input) = prompt_generator input.
Proof. apply prompt_generator_chat_only. Qed.

Lemma field_lines_agree (doc doc' : Document) :
  metadata doc !! "title" = metadata doc' !! "title" ->
  metadata doc !! "description" = metadata doc' !! "description" ->
  metadata doc !! "source" = metadata doc' !! "source" ->
  field_lines doc = field_lines doc'.
Proof.
  intros Ht Hd Hs. unfold field_lines. cbn [omap list_omap].
  by rewrite Ht, Hd, Hs.
Qed.

Lemma results_prompt_nonempty (earlier later : list Document) (doc : Document) :
  results_prompt (earlier ++ doc :: later) = results_body (earlier ++ doc :: later).
Proof. destruct earlier; apply results_prompt_cons. Qed.

(** X2: of the metadata of a result only the keys [title], [description]
    and [source] are read: a result rendered in a response can be
    replaced by one with the same text and the same values under these
    three keys, whatever else its metadata holds, and the prompt is the
    same. *)
Theorem prompt_generator_reads_three_fields
    (before after : list MessageLike) (earlier later : list Document)
    (doc doc' : Document) :
  page_content doc = page_content doc' ->
  metadata doc !! "title" = metadata doc' !! "title" ->
  metadata doc !! "description" = metadata doc' !! "description" ->
  metadata doc !! "source" = metadata doc' !! "source" ->
  prompt_generator
    (before ++ Internal (RetrievalResponse (earlier ++ doc :: later)) :: after)
  = prompt_generator
      (before ++ Internal (RetrievalResponse (earlier ++ doc' :: later)) :: after).
Proof.
  intros Hc Ht Hd Hs. rewrite !prompt_generator_middle.
  cbn [rendered]. rewrite !results_prompt_nonempty.
  unfold results_body. rewrite !imap_app, !imap_cons.
  unfold result_block at 2 4. by rewrite Hc, (field_lines_agree doc doc').
Qed.

Lemma prompt_generator_reads_three_fields_witness :
  page_content demo_doc
  = page_content (mkDocument "A" (<[ "author" := "N" ]> {[ "title" := "T" ]}))
  /\ metadata demo_doc !! "title"
     = metadata (mkDocument "A" (<[ "author" := "N" ]> {[ "title" := "T" ]})) !! "title"
  /\ metadata demo_doc !! "description"
     = metadata (mkDocument "A" (<[ "author" := "N" ]> {[ "title" := "T" ]}))
         !! "description"
  /\ metadata demo_doc !! "source"
     = metadata (mkDocument "A" (<[ "author" := "N" ]> {[ "title" := "T" ]})) !! "source"
  /\ prompt_generator
       ([Chat (HumanMessage "q")]
          ++ Internal (RetrievalResponse ([] ++ demo_doc :: [demo_doc])) :: [])
     = prompt_generator
         ([Chat (HumanMessage "q")]
            ++ Internal
                 (RetrievalResponse
                    ([] ++ mkDocument "A" (<[ "author" := "N" ]> {[ "title" := "T" ]})
                        :: [demo_doc])) :: []).
Proof.
  do 4 (split; [vm_compute; reflexivity|]).
  apply (prompt_generator_reads_three_fields [Chat (HumanMessage "q")] [] []
           [demo_doc] demo_doc
           (mkDocument "A" (<[ "author" := "N" ]> {[ "title" := "T" ]})));
    vm_compute; reflexivity.
Defined.

(** X3: the text [Found no results for the query.] is the prompt of a
    response exactly when the response has no result: a response with
    results never renders to the message of the empty response. *)
Theorem prompt_generator_no_results_iff (results : list Document) :
  prompt_generator [Internal (RetrievalResponse results)]
  = [HumanMessage
       ("Context: <result>" +:+ LF +:+ "Found no results for the query."
        +:+ LF +:+ "</result>")]
  <-> results = [].
Proof.
  split; [|by intros ->].
  destruct results as [|doc docs]; [done|]. intros H. exfalso.
  rewrite prompt_generator_flat_map in H. cbn [flat_map rendered app] in H.
  rewrite results_prompt_cons in H.
  unfold wrap_context, results_body in H. rewrite imap_cons in H.
  cbn [foldr] in H. unfold result_block in H.
  discriminate H.
Qed.

(** X4: a result that has none of [title], [description], [source] is
    rendered with its text directly followed by the closing marker: no
    line feed is put after the text. *)
Theorem prompt_generator_without_fields (doc : Document) :
  metadata doc !! "title" = None ->
  metadata doc !! "description" = None ->
  metadata doc !! "source" = None ->
  prompt_generator [Internal (RetrievalResponse [doc])]
  = [HumanMessage
       (("Context: <result>" +:+ LF)
        +:+ (("--- Result 0 ---" +:+ LF)
             +:+ ("Text:" +:+ LF)
             +:+ page_content doc
             +:+ ("--- End Result 0 ---" +:+ LF))
        +:+ (LF +:+ "</result>"))].
Proof.
  intros Ht Hd Hs. rewrite prompt_generator_flat_map.
  cbn [flat_map rendered app]. rewrite results_prompt_cons.
  unfold results_body, wrap_context, result_block, field_lines.
  cbn [imap foldr omap list_omap]. rewrite Ht, Hd, Hs.
  cbn [fmap option_fmap option_map foldr].
  rewrite !string_app_nil_l, !string_app_nil_r.
  change (pretty 0) with "0". reflexivity.
Qed.

Lemma prompt_generator_without_fields_witness :
  metadata (mkDocument "body" {[ "author" := "N" ]}) !! "title" = None
  /\ metadata (mkDocument "body" {[ "author" := "N" ]}) !! "description" = None
  /\ metadata (mkDocument "body" {[ "author" := "N" ]}) !! "source" = None
  /\ prompt_generator
       [Internal (RetrievalResponse [mkDocument "body" {[ "author" := "N" ]}])]
     = [HumanMessage
          (("Context: <result>" +:+ LF)
           +:+ (("--- Result 0 ---" +:+ LF)
                +:+ ("Text:" +:+ LF)
                +:+ page_content (mkDocument "body" {[ "author" := "N" ]})
                +:+ ("--- End Result 0 ---" +:+ LF))
           +:+ (LF +:+ "</result>"))].
Proof.
  do 3 (split; [vm_compute; reflexivity|]).
  apply (prompt_generator_without_fields (mkDocument "body" {[ "author" := "N" ]}));
    vm_compute; reflexivity.
Defined.

(** ** Further properties of [step] *)

Section FurtherStepProperties.

Context {World Config : Type}.
Implicit Types (self : RagAgent World Config) (s : State World Config).
Implicit Types (log earlier : list MessageLike) (config : option Config).

Lemma step_snoc self earlier m config s :
  step self (earlier ++ [m]) config s
  = match m with
    | Chat (AIMessage _) => ret []
    | Internal (AgentFinish _) => ret []
    | Chat (HumanMessage content) => ret [Internal (RetrievalRequest content)]
    | Internal (RetrievalRequest _) =>
        let* response := invoke_retriever self m config in
        ret [response]
    | _ => invoke_llm_program self (earlier ++ [m]) config
    end s.
Proof. unfold step. by rewrite last_snoc. Qed.

Lemma step_effect self log config s r s2 :
  step self log config s = (r, s2) ->
  yielded s2 = yielded s
  /\ (s2 = s
      \/ (exists q,
            last log = Some (Internal (RetrievalRequest q))
            /\ calls s2
               = calls s ++ [RetrieverCall (Internal (RetrievalRequest q)) config])
      \/ (exists m,
            last log = Some m /\ is_default_event m = true
            /\ calls s2 = calls s ++ [LLMCall log config])).
Proof.
  unfold step.
  assert (Hllm : forall m,
             last log = Some m -> is_default_event m = true ->
             invoke_llm_program self log config s = (r, s2) ->
             yielded s2 = yielded s
             /\ (s2 = s
                 \/ (exists q,
                       Some m = Some (Internal (RetrievalRequest q))
                       /\ calls s2
                          = calls s
                            ++ [RetrieverCall (Internal (RetrievalRequest q)) config])
                 \/ (exists m',
                       Some m = Some m' /\ is_default_event m' = true
                       /\ calls s2 = calls s ++ [LLMCall log config]))).
  { intros m Hlast Hm. unfold invoke_llm_program.
    destruct (llm_program self log config (world s)) as [r' w].
    intros [= _ <-]. split; [done|]. right. right. by exists m. }
  destruct (last log) as [m|] eqn:Hlast; [|intros [= _ <-]; split; [done|by left]].
  destruct m as [[c|c|c|nm c|role c]|[q|results|res|tag data]];
    try (by apply (Hllm _ eq_refl));
    try (intros [= _ <-]; split; [done|by left]).
  unfold bind, invoke_retriever, ret.
  destruct (retriever self _ config (world s)) as [[e|response] w];
    intros [= _ <-]; (split; [done|]); right; left; by exists q.
Qed.

(** X5: whatever the log, [step] produces no event by itself, never calls
    the memory manager, and makes at most one collaborator call, with the
    [config] it was given: either it leaves the state untouched, or its
    one call is the retriever on the last event of the log, a
    [RetrievalRequest], or its one call is the LLM program on the log
    itself, whole and unchanged, the last event of which is then none of
    an AI message, a finish signal, a human message and a retrieval
    request. *)
Theorem step_one_call_at_most self log config s :
  yielded (step self log config s).2 = yielded s
  /\ ((step self log config s).2 = s
      \/ exists c,
           calls (step self log config s).2 = calls s ++ [c]
           /\ is_process_call c = false
           /\ call_of_step config c
           /\ ((exists q,
                  last log = Some (Internal (RetrievalRequest q))
                  /\ c = RetrieverCall (Internal (RetrievalRequest q)) config)
               \/ (exists m,
                     last log = Some m /\ is_default_event m = true
                     /\ c = LLMCall log config))).
Proof.
  destruct (step self log config s) as [r s2] eqn:Hstep.
  apply step_effect in Hstep as [Hy [->|[(q & Hlast & Hc)|(m & Hlast & Hm & Hc)]]];
    cbn [snd]; (split; [done|]); [by left|right; eexists; split; [exact Hc|]..].
  - split; [reflexivity|]. split; [by split|]. left. by exists q.
  - split; [reflexivity|]. split; [|right; by exists m].
    split; [reflexivity|by exists m].
Qed.

(** X6: when the last event is a human message, an AI message, a finish
    signal or a retrieval request, [step] looks at that event alone: the
    events before it can be replaced or dropped without any change to the
    result or to the call made. *)
Theorem step_last_event_only self earlier earlier' m config s :
  is_default_event m = false ->
  step self (earlier ++ [m]) config s = step self (earlier' ++ [m]) config s.
Proof.
  intros Hm. rewrite !step_snoc.
  by destruct m as [[c|c|c|nm c|role c]|[q|results|res|tag data]].
Qed.

End FurtherStepProperties.

Lemma step_last_event_only_witness :
  is_default_event (Internal (RetrievalRequest "q")) = false
  /\ step demo_agent
       ([Chat (HumanMessage "q")] ++ [Internal (RetrievalRequest "q")]) None demo_state
     = step demo_agent ([] ++ [Internal (RetrievalRequest "q")]) None demo_state.
Proof.
  split; [reflexivity|].
  apply (step_last_event_only demo_agent [Chat (HumanMessage "q")] []
           (Internal (RetrievalRequest "q")) None demo_state).
  reflexivity.
Defined.

(** ** Further properties of [run] *)

Section FurtherRunProperties.

Context {World Config : Type}.
Implicit Types (self : RagAgent World Config) (s : State World Config).
Implicit Types (log messages : list MessageLike) (config : option Config).
Implicit Types (cs : list (Call Config)).

(** The four ways one pass through the loop body ends. *)
Lemma run_body_inv self config log s r s1 :
  run_body self config log s = (r, s1) ->
  (exists e, process self log s = (inl e, s1) /\ r = inl e)
  \/ (exists log1 sp e,
        process self log s = (inr log1, sp)
        /\ step self log1 config sp = (inl e, s1) /\ r = inl e)
  \/ (exists log1 sp,
        process self log s = (inr log1, sp)
        /\ step self log1 config sp = (inr [], s1) /\ r = inr (Break, log1))
  \/ (exists log1 sp m new ss,
        process self log s = (inr log1, sp)
        /\ step self log1 config sp = (inr (m :: new), ss)
        /\ r = inr (Next, log1 ++ m :: new)
        /\ s1 = mkState (world ss) (calls ss) (yielded ss ++ m :: new)).
Proof.
  unfold run_body, bind.
  destruct (process self log s) as [[e|log1] sp].
  { intros [= ? ?]; subst. left. repeat eexists. }
  destruct (step self log1 config sp) as [[e|[|m new]] ss] eqn:Hs.
  - intros [= ? ?]; subst. right. left. repeat eexists; exact Hs.
  - intros [= ? ?]; subst. right. right. left. repeat eexists; exact Hs.
  - rewrite yield_from_spec. intros [= ? ?]; subst. do 3 right.
    repeat eexists; exact Hs.
Qed.

Lemma run_body_grows self config log s r s1 :
  run_body self config log s = (r, s1) ->
  exists cs new,
    calls s1 = calls s ++ cs
    /\ yielded s1 = yielded s ++ new
    /\ process_calls cs <= 1
    /\ (forall log1, r = inr (Next, log1) -> new <> []).
Proof.
  intros Hbody.
  destruct (run_body_trace _ _ _ _ _ _ Hbody) as (cs & Hcalls & Hround & _).
  exists cs. apply round_calls_count in Hround.
  apply run_body_inv in Hbody
    as [(e & Hp & ->)|[(log1 & sp & e & Hp & Hs & ->)
       |[(log1 & sp & Hp & Hs & ->)|(log1 & sp & m & new & ss & Hp & Hs & -> & ->)]]].
  - exists []. apply process_trace in Hp as [-> _].
    rewrite app_nil_r. by repeat split.
  - exists []. apply process_returns in Hp as [_ Hp].
    apply step_trace in Hs as [-> _]. rewrite app_nil_r. by repeat split.
  - exists []. apply process_returns in Hp as [_ Hp].
    apply step_trace in Hs as [-> _]. rewrite app_nil_r. by repeat split.
  - exists (m :: new). apply process_returns in Hp as [_ Hp].
    apply step_trace in Hs as [Hs _]. cbn [yielded calls] in *.
    rewrite Hs, Hp. by repeat split.
Qed.

Lemma for_range_grows self config (n : nat) log s r s' :
  for_range n (run_body self config) log s = (r, s') ->
  exists cs new,
    calls s' = calls s ++ cs
    /\ yielded s' = yielded s ++ new
    /\ process_calls cs <= length new + 1.
Proof.
  revert log s. induction n as [|n IH]; intros log s.
  - intros [= _ <-]. exists [], []. rewrite !app_nil_r. repeat split. cbn. lia.
  - cbn [for_range]. unfold bind at 1.
    destruct (run_body self config log s) as [[e|[[|] log1]] s1] eqn:Hb;
      apply run_body_grows in Hb as (cs & new & Hc & Hy & Hcount & Hnew).
    + intros [= _ <-]. exists cs, new. repeat split; [done..|lia].
    + intros (cs' & new' & Hc' & Hy' & Hcount')%IH.
      exists (cs ++ cs'), (new ++ new').
      rewrite Hc', Hc, Hy', Hy, <- !app_assoc. repeat split.
      rewrite process_calls_app, length_app.
      specialize (Hnew log1 eq_refl). destruct new; [done|]. cbn. lia.
    + intros [= _ <-]. exists cs, new. repeat split; [done..|lia].
Qed.

(** X7: with a [max_iterations] that is not positive, [run] returns at
    once: no event is produced, no collaborator is called, nothing is
    raised, whatever the log and the agent, even one without a memory
    manager. *)
Theorem run_without_rounds self messages config (max_iterations : Z) s :
  (max_iterations <= 0)%Z ->
  run self messages config (Some max_iterations) s = (inr tt, s).
Proof.
  intros Hle. unfold run.
  change (default 100%Z (Some max_iterations)) with max_iterations.
  by replace (Z.to_nat max_iterations) with 0 by lia.
Qed.

(** X8: [run] only adds to what has been produced and to the trace of
    calls, also when it ends by an exception: the events produced before
    stay produced.  The rounds made are at most one more than the events
    produced, since every round but the last produces at least one. *)
Theorem run_rounds_and_events self messages config (max_iterations : option Z) s :
  exists cs new,
    calls (run self messages config max_iterations s).2 = calls s ++ cs
    /\ yielded (run self messages config max_iterations s).2 = yielded s ++ new
    /\ process_calls cs <= length new + 1.
Proof.
  unfold run, bind.
  destruct (for_range _ _ messages s) as [[e|log] s'] eqn:Hloop;
    apply for_range_grows in Hloop; exact Hloop.
Qed.

Lemma for_range_succ self config (n : nat) log s :
  exists cs new,
    calls (for_range (S n) (run_body self config) log s).2
    = calls (for_range n (run_body self config) log s).2 ++ cs
    /\ yielded (for_range (S n) (run_body self config) log s).2
       = yielded (for_range n (run_body self config) log s).2 ++ new
    /\ process_calls cs <= 1
    /\ (forall e,
          (for_range n (run_body self config) log s).1 = inl e ->
          for_range (S n) (run_body self config) log s
          = for_range n (run_body self config) log s).
Proof.
  revert log s. induction n as [|n IH]; intros log s.
  - cbn [for_range]. unfold bind, ret. cbn [fst snd].
    destruct (run_body self config log s) as [[e|[[|] log1]] s1] eqn:Hb;
      apply run_body_grows in Hb as (cs & new & Hc & Hy & Hcount & _);
      exists cs, new; by repeat split.
  - rewrite (for_range_S (S n) _ log s), (for_range_S n _ log s).
    destruct (run_body self config log s) as [[e|[[|] log1]] s1].
    + exists [], []. rewrite !app_nil_r. repeat split. cbn. lia.
    + apply IH.
    + exists [], []. rewrite !app_nil_r. repeat split. cbn. lia.
Qed.

(** X9: a cap larger by one leaves what the run does within the smaller
    cap as it is: the calls made and the events produced under the
    smaller cap come first, at most one more round is made after them,
    and a run that ends by an exception under the smaller cap ends in the
    same way under the larger one. *)
Theorem run_cap_monotone self messages config (max_iterations : Z) s :
  exists cs new,
    calls (run self messages config (Some (max_iterations + 1)%Z) s).2
    = calls (run self messages config (Some max_iterations) s).2 ++ cs
    /\ yielded (run self messages config (Some (max_iterations + 1)%Z) s).2
       = yielded (run self messages config (Some max_iterations) s).2 ++ new
    /\ process_calls cs <= 1
    /\ (forall e,
          (run self messages config (Some max_iterations) s).1 = inl e ->
          run self messages config (Some (max_iterations + 1)%Z) s
          = run self messages config (Some max_iterations) s).
Proof.
  unfold run.
  change (default 100%Z (Some max_iterations)) with max_iterations.
  change (default 100%Z (Some (max_iterations + 1)%Z)) with (max_iterations + 1)%Z.
  destruct (Z_lt_le_dec max_iterations 0) as [Hneg|Hpos].
  - replace (Z.to_nat (max_iterations + 1)) with 0 by lia.
    replace (Z.to_nat max_iterations) with 0 by lia.
    exists [], []. rewrite !app_nil_r. repeat split. cbn. lia.
  - replace (Z.to_nat (max_iterations + 1)) with (S (Z.to_nat max_iterations)) by lia.
    destruct (for_range_succ self config (Z.to_nat max_iterations) messages s)
      as (cs & new & Hc & Hy & Hcount & Herr).
    exists cs, new. unfold bind.
    destruct (for_range (Z.to_nat max_iterations) _ messages s) as [[e|l] s1];
      destruct (for_range (S (Z.to_nat max_iterations)) _ messages s) as [[e'|l'] s2];
      cbn [fst snd ret] in *; repeat split; try done.
    + intros e0 _. by injection (Herr e eq_refl) as -> ->.
    + intros e0 _. by specialize (Herr e eq_refl).
Qed.

End FurtherRunProperties.

Lemma run_without_rounds_witness :
  (-3 <= 0)%Z
  /\ run bare_agent demo_log None (Some (-3)%Z) demo_state = (inr tt, demo_state).
Proof.
  split; [lia|].
  apply (run_without_rounds bare_agent demo_log None (-3)%Z demo_state). lia.
Defined.

(** ** What [run] hands to the collaborators *)

Section RunCalls.

Context {World Config : Type}.
Implicit Types (self : RagAgent World Config) (s : State World Config).
Implicit Types (log messages : list MessageLike) (config : option Config).
Implicit Types (cs : list (Call Config)).

(** A property of the log that the rounds keep gives a property of every
    call of the run. *)
Lemma for_range_calls_Forall self config
    (I : list MessageLike -> Prop) (P : Call Config -> Prop) :
  (forall log s r s1,
      I log ->
      run_body self config log s = (r, s1) ->
      (exists cs, calls s1 = calls s ++ cs /\ Forall P cs)
      /\ (forall log1, r = inr (Next, log1) -> I log1)) ->
  forall (n : nat) log s r s',
    I log ->
    for_range n (run_body self config) log s = (r, s') ->
    exists cs, calls s' = calls s ++ cs /\ Forall P cs.
Proof.
  intros Hbody. induction n as [|n IH]; intros log s r s' Hlog.
  - intros [= _ <-]. exists []. by rewrite app_nil_r.
  - rewrite for_range_S.
    destruct (run_body self config log s) as [[e|[[|] log1]] s1] eqn:Hb;
      destruct (Hbody _ _ _ _ Hlog Hb) as [(cs & Hc & Hcs) Hnext].
    + intros [= _ <-]. by exists cs.
    + intros (cs' & Hc' & Hcs')%IH; [|by apply Hnext].
      exists (cs ++ cs'). rewrite Hc', Hc, <- app_assoc.
      split; [done|]. by apply Forall_app.
    + intros [= _ <-]. by exists cs.
Qed.

Lemma run_body_calls_of_step self config log s r s1 :
  run_body self config log s = (r, s1) ->
  exists cs, calls s1 = calls s ++ cs /\ Forall (call_of_step config) cs.
Proof.
  assert (Hstep : forall log1 sp rs ss,
             process self log s = (inr log1, sp) ->
             step self log1 config sp = (rs, ss) ->
             exists cs, calls ss = calls s ++ cs /\ Forall (call_of_step config) cs).
  { intros log1 sp rs ss [Hp _]%process_returns Hs.
    apply step_effect in Hs
      as [_ [->|[(q & Hlast & ->)|(m & Hlast & Hm & ->)]]]; rewrite Hp.
    - eexists. split; [done|]. by repeat constructor.
    - rewrite <- app_assoc. eexists. split; [done|]. by repeat constructor.
    - rewrite <- app_assoc. eexists. split; [done|].
      repeat constructor. by exists m. }
  intros [(e & Hp & ->)|[(log1 & sp & e & Hp & Hs & ->)
         |[(log1 & sp & Hp & Hs & ->)
          |(log1 & sp & m & new & ss & Hp & Hs & -> & ->)]]]%run_body_inv.
  - apply process_trace in Hp as [_ [[-> _]| ->]].
    + exists []. by rewrite app_nil_r.
    + eexists. split; [done|]. by repeat constructor.
  - by eapply Hstep.
  - by eapply Hstep.
  - cbn [calls]. by eapply Hstep.
Qed.

(** X10: in every run, each call of the retriever is made on a
    [RetrievalRequest], each call of the LLM program is made on a log
    that is not empty and whose last event is none of an AI message, a
    finish signal, a human message and a retrieval request, and each of
    these calls is given the [config] of the run. *)
Theorem run_calls_of_step self messages config (max_iterations : option Z) s :
  exists cs,
    calls (run self messages config max_iterations s).2 = calls s ++ cs
    /\ Forall (call_of_step config) cs.
Proof.
  unfold run, bind.
  destruct (for_range _ _ messages s) as [[e|log] s'] eqn:Hloop;
    apply (for_range_calls_Forall self config (fun _ => True)
             (call_of_step config)) in Hloop; try done;
    intros log0 s0 r0 s1 _ Hb; (split; [|done]);
    by apply run_body_calls_of_step in Hb.
Qed.

Lemma process_returns_input self mm log s log1 sp :
  memory_manager self = Some mm ->
  (forall log w log', (mm log w).1 = inr log' -> log' = log) ->
  process self log s = (inr log1, sp) ->
  log1 = log.
Proof.
  intros Hmm Hid. unfold process. rewrite Hmm.
  specialize (Hid log (world s)).
  destruct (mm log (world s)) as [r w]. intros [= -> _]. by apply Hid.
Qed.

Lemma run_body_calls_extend self mm config messages log s r s1 :
  memory_manager self = Some mm ->
  (forall log w log', (mm log w).1 = inr log' -> log' = log) ->
  messages `prefix_of` log ->
  run_body self config log s = (r, s1) ->
  (exists cs, calls s1 = calls s ++ cs /\ Forall (call_log_extends messages) cs)
  /\ (forall log1, r = inr (Next, log1) -> messages `prefix_of` log1).
Proof.
  intros Hmm Hid Hprefix.
  assert (Hstep : forall log1 sp rs ss,
             process self log s = (inr log1, sp) ->
             step self log1 config sp = (rs, ss) ->
             exists cs,
               calls ss = calls s ++ cs /\ Forall (call_log_extends messages) cs).
  { intros log1 sp rs ss Hp Hs.
    pose proof (process_returns_input _ _ _ _ _ _ Hmm Hid Hp) as ->.
    apply process_returns in Hp as [Hp _].
    apply step_effect in Hs
      as [_ [->|[(q & Hlast & ->)|(m & Hlast & Hm & ->)]]]; rewrite Hp.
    - eexists. split; [done|]. by repeat constructor.
    - rewrite <- app_assoc. eexists. split; [done|]. by repeat constructor.
    - rewrite <- app_assoc. eexists. split; [done|]. by repeat constructor. }
  intros [(e & Hp & ->)|[(log1 & sp & e & Hp & Hs & ->)
         |[(log1 & sp & Hp & Hs & ->)
          |(log1 & sp & m & new & ss & Hp & Hs & -> & ->)]]]%run_body_inv.
  - split; [|done]. apply process_trace in Hp as [_ [[-> _]| ->]].
    + exists []. by rewrite app_nil_r.
    + eexists. split; [done|]. by repeat constructor.
  - split; [|done]. by eapply Hstep.
  - split; [|done]. by eapply Hstep.
  - split; [cbn [calls]; by eapply Hstep|].
    intros ? [= <-].
    pose proof (process_returns_input _ _ _ _ _ _ Hmm Hid Hp) as ->.
    by apply prefix_app_r.
Qed.

(** X11: with a memory manager that returns the log it is given (whenever
    it returns), the history is never lost: every log handed to the
    memory manager or to the LLM program during the run starts with the
    messages the run was called with. *)
Theorem run_keeps_history self mm messages config (max_iterations : option Z) s :
  memory_manager self = Some mm ->
  (forall log w log', (mm log w).1 = inr log' -> log' = log) ->
  exists cs,
    calls (run self messages config max_iterations s).2 = calls s ++ cs
    /\ Forall (call_log_extends messages) cs.
Proof.
  intros Hmm Hid. unfold run, bind.
  destruct (for_range _ _ messages s) as [[e|log] s'] eqn:Hloop;
    apply (for_range_calls_Forall self config (fun log => messages `prefix_of` log)
             (call_log_extends messages)) in Hloop; try done;
    intros log0 s0 r0 s1 Hprefix Hb;
    by apply (run_body_calls_extend self mm config messages log0 s0 r0 s1).
Qed.

End RunCalls.

Lemma run_keeps_history_witness :
  memory_manager demo_agent = Some demo_memory
  /\ (forall log w log', (demo_memory log w).1 = inr log' -> log' = log)
  /\ exists cs,
       calls (run demo_agent demo_log None (Some 3%Z) demo_state).2
       = calls demo_state ++ cs
       /\ Forall (call_log_extends demo_log) cs.
Proof.
  split; [reflexivity|].
  assert (Hid : forall log w log', (demo_memory log w).1 = inr log' -> log' = log).
  { intros log w log' H. injection H as H. symmetry. exact H. }
  split; [exact Hid|].
  exact (run_keeps_history demo_agent demo_memory demo_log None (Some 3%Z)
           demo_state eq_refl Hid).
Defined.

(** ** A question answered *)

Section RagFlow.

Context {World Config : Type}.
Implicit Types (self : RagAgent World Config) (s : State World Config).
Implicit Types (log earlier : list MessageLike) (config : option Config).

Lemma process_unchanged self mm log s :
  memory_manager self = Some mm ->
  (forall log w, mm log w = (inr log, w)) ->
  process self log s = (inr log, mkState (world s) (calls s ++ [ProcessCall log]) (yielded s)).
Proof. intros Hmm Hid. unfold process. by rewrite Hmm, Hid. Qed.

(** X12: the whole flow on a question.  With a memory manager that hands
    the log back unchanged, a retriever that answers the request with a
    [RetrievalResponse] and an LLM program that answers the log so
    extended with one AI message, a run of at least four rounds on a log
    ending in a human message with content [C] produces exactly the
    request for [C], the response and the AI message, in this order, then
    stops normally in the fourth round; the calls are the memory manager
    on each of the four successive logs, the retriever once and the LLM
    program once. *)
Theorem run_answers_question self mm earlier C docs answer config
    (max_iterations : Z) s w1 w2 :
  memory_manager self = Some mm ->
  (forall log w, mm log w = (inr log, w)) ->
  retriever self (Internal (RetrievalRequest C)) config (world s)
  = (inr (Internal (RetrievalResponse docs)), w1) ->
  llm_program self
    (earlier ++ [Chat (HumanMessage C); Internal (RetrievalRequest C);
                 Internal (RetrievalResponse docs)]) config w1
  = (inr [Chat (AIMessage answer)], w2) ->
  (4 <= max_iterations)%Z ->
  run self (earlier ++ [Chat (HumanMessage C)]) config (Some max_iterations) s
  = (inr tt,
     mkState w2
       (calls s
        ++ [ProcessCall (earlier ++ [Chat (HumanMessage C)]);
            ProcessCall (earlier ++ [Chat (HumanMessage C);
                                     Internal (RetrievalRequest C)]);
            RetrieverCall (Internal (RetrievalRequest C)) config;
            ProcessCall (earlier ++ [Chat (HumanMessage C);
                                     Internal (RetrievalRequest C);
                                     Internal (RetrievalResponse docs)]);
            LLMCall (earlier ++ [Chat (HumanMessage C);
                                 Internal (RetrievalRequest C);
                                 Internal (RetrievalResponse docs)]) config;
            ProcessCall (earlier ++ [Chat (HumanMessage C);
                                     Internal (RetrievalRequest C);
                                     Internal (RetrievalResponse docs);
                                     Chat (AIMessage answer)])])
       (yielded s
        ++ [Internal (RetrievalRequest C); Internal (RetrievalResponse docs);
            Chat (AIMessage answer)])).
Proof.
  intros Hmm Hid Hret Hllm Hcap.
  rewrite run_unfold by lia.
  rewrite (process_unchanged self mm) by done.
  rewrite step_snoc. cbv beta iota. unfold ret at 1. cbv beta iota.
  rewrite run_unfold by lia.
  rewrite (process_unchanged self mm) by done.
  rewrite step_snoc. cbv beta iota.
  unfold bind, invoke_retriever, record. cbn [world calls yielded].
  rewrite Hret. unfold ret at 1. cbv beta iota.
  rewrite run_unfold by lia.
  rewrite (process_unchanged self mm) by done.
  rewrite step_snoc. cbv beta iota.
  unfold invoke_llm_program, record. cbn [world calls yielded].
  rewrite <- !(app_assoc earlier). cbn [app].
  rewrite Hllm. cbv beta iota.
  replace (earlier ++ [Chat (HumanMessage C); Internal (RetrievalRequest C);
                       Internal (RetrievalResponse docs); Chat (AIMessage answer)])
    with ((earlier ++ [Chat (HumanMessage C); Internal (RetrievalRequest C);
                       Internal (RetrievalResponse docs)])
            ++ [Chat (AIMessage answer)])
    by (by rewrite <- app_assoc).
  rewrite run_unfold by lia.
  rewrite (process_unchanged self mm) by done.
  rewrite step_snoc. cbv beta iota. unfold ret. cbn [world calls yielded].
  by rewrite <- !app_assoc.
Qed.

End RagFlow.

Lemma run_answers_question_witness :
  memory_manager chat_agent = Some demo_memory
  /\ (forall log w, demo_memory log w = (inr log, w))
  /\ retriever chat_agent (Internal (RetrievalRequest "q")) None (world demo_state)
     = (inr (Internal (RetrievalResponse [])), 1)
  /\ llm_program chat_agent
       ([] ++ [Chat (HumanMessage "q"); Internal (RetrievalRequest "q");
               Internal (RetrievalResponse [])]) None 1
     = (inr [Chat (AIMessage "a")], 2)
  /\ (4 <= 100)%Z
  /\ run chat_agent ([] ++ [Chat (HumanMessage "q")]) None (Some 100%Z) demo_state
     = (inr tt,
        mkState 2
          (calls demo_state
           ++ [ProcessCall ([] ++ [Chat (HumanMessage "q")]);
               ProcessCall ([] ++ [Chat (HumanMessage "q");
                                   Internal (RetrievalRequest "q")]);
               RetrieverCall (Internal (RetrievalRequest "q")) None;
               ProcessCall ([] ++ [Chat (HumanMessage "q");
                                   Internal (RetrievalRequest "q");
                                   Internal (RetrievalResponse [])]);
               LLMCall ([] ++ [Chat (HumanMessage "q");
                               Internal (RetrievalRequest "q");
                               Internal (RetrievalResponse [])]) None;
               ProcessCall ([] ++ [Chat (HumanMessage "q");
                                   Internal (RetrievalRequest "q");
                                   Internal (RetrievalResponse []);
                                   Chat (AIMessage "a")])])
          (yielded demo_state
           ++ [Internal (RetrievalRequest "q"); Internal (RetrievalResponse []);
               Chat (AIMessage "a")])).
Proof.
  do 4 (split; [reflexivity|]). split; [lia|].
  apply (run_answers_question chat_agent demo_memory [] "q" [] "a" None 100%Z
           demo_state 1 2); try reflexivity.
  lia.
Defined.

(** ** Exceptions *)

Section RunExceptions.

Context {World Config : Type}.
Implicit Types (self : RagAgent World Config) (s : State World Config).
Implicit Types (log messages : list MessageLike) (config : option Config).

Lemma process_raised self config log s e s1 :
  process self log s = (inl e, s1) -> raised_by self config e.
Proof.
  unfold process. destruct (memory_manager self) as [mm|] eqn:Hmm.
  - destruct (mm log (world s)) as [r w] eqn:Hcall. intros [= -> _].
    right. left. by exists mm, log, (world s), w.
  - intros [= <- _]. by left.
Qed.

Lemma step_raised self config log s e s1 :
  step self log config s = (inl e, s1) -> raised_by self config e.
Proof.
  unfold step.
  assert (Hllm : invoke_llm_program self log config s = (inl e, s1) ->
                 raised_by self config e).
  { unfold invoke_llm_program.
    destruct (llm_program self log config (world s)) as [r w] eqn:Hcall.
    intros [= -> _]. do 3 right. by exists log, (world s), w. }
  destruct (last log) as [[[c|c|c|nm c|role c]|[q|results|res|tag data]]|];
    try exact Hllm; try (by intros [=]).
  unfold bind, invoke_retriever, ret.
  destruct (retriever self _ config (world s)) as [[e'|response] w] eqn:Hcall;
    intros [= <- _]. right. right. left. by eexists _, (world s), w.
Qed.

Lemma for_range_raised self config (n : nat) log s e s' :
  for_range n (run_body self config) log s = (inl e, s') -> raised_by self config e.
Proof.
  revert log s. induction n as [|n IH]; intros log s; [by intros [=]|].
  rewrite for_range_S.
  destruct (run_body self config log s) as [[e0|[[|] log1]] s1] eqn:Hb.
  - intros [= -> _].
    apply run_body_inv in Hb
      as [(e1 & Hp & [= ->])|[(l1 & sp & e1 & Hp & Hs & [= ->])
         |[(l1 & sp & _ & _ & [=])|(l1 & sp & m & new & ss & _ & _ & [=] & _)]]].
    + by eapply process_raised.
    + by eapply step_raised.
  - apply IH.
  - by intros [=].
Qed.

(** X14: [step] and [run] raise nothing of their own but the
    [AttributeError] of a missing memory manager: an exception that ends
    a run was raised by a call of the memory manager, of the retriever or
    of the LLM program of the agent, and is passed on as it is. *)
Theorem run_raises_what_was_raised self messages config
    (max_iterations : option Z) s e s' :
  run self messages config max_iterations s = (inl e, s') ->
  raised_by self config e.
Proof.
  unfold run, bind.
  destruct (for_range _ _ messages s) as [[e0|log] s1] eqn:Hloop; [|by intros [=]].
  intros [= -> _]. by eapply for_range_raised.
Qed.

End RunExceptions.

Lemma run_raises_what_was_raised_witness :
  run failing_agent demo_log None (Some 5%Z) demo_state
  = (inl (CollaboratorError "backend down"),
     mkState 0
       [ProcessCall demo_log;
        ProcessCall (demo_log ++ [Internal (RetrievalRequest "q")]);
        RetrieverCall (Internal (RetrievalRequest "q")) None]
       [Internal (RetrievalRequest "q")])
  /\ raised_by failing_agent None (CollaboratorError "backend down").
Proof.
  split; [reflexivity|].
  exact (run_raises_what_was_raised failing_agent demo_log None (Some 5%Z)
           demo_state _ _ eq_refl).
Defined.

(** ** Construction of the agent *)

(** X13: [__init__] builds the LLM program and the retriever from its
    arguments alone, whatever memory manager is given, and asks for tool
    invocation exactly when a list of tools is given and is not empty: an
    empty list of tools is passed on as it is but counts as no tools. *)
Theorem init_invokes_tools_when_given
    {World Config LanguageModel PromptGenerator Tool Parser BaseRetriever : Type}
    (create_llm_program :
       LanguageModel -> PromptGenerator -> option (list Tool) -> option Parser ->
       option (list string) -> bool -> LLMProgram World Config)
    (create_retriever : option BaseRetriever -> RetrieverAdapter World Config)
    llm prompt_generator tools stop parser base_retriever
    (manager : option (WorkingMemoryManager World)) :
  exists invoke_tools : bool,
    llm_program
      (__init__ create_llm_program create_retriever
         llm prompt_generator tools stop parser base_retriever manager)
    = create_llm_program llm prompt_generator tools parser stop invoke_tools
    /\ (invoke_tools = true <-> exists tool rest, tools = Some (tool :: rest))
    /\ retriever
         (__init__ create_llm_program create_retriever
            llm prompt_generator tools stop parser base_retriever manager)
       = create_retriever base_retriever.
Proof.
  exists (bool_of_tools tools). split; [reflexivity|]. split; [|reflexivity].
  destruct tools as [[|tool rest]|]; cbn; split; try done.
  - by intros (? & ? & [=]).
  - intros _. by eexists _, _.
  - by intros (? & ? & [=]).
Qed.
